(** * vn-finance: the reports client, the search box, the table and the
      fetch-and-cache core

    A shallow embedding of the TypeScript front end
    ([services/api.ts], [App.tsx], [components/StockSearch.tsx],
    [components/FinancialTable.tsx], [types/financial.ts]) and, for the
    server side, of the fetch orchestrator and the period read as the
    design document words them. *)

From Stdlib Require Import ZArith NArith Ascii String DecimalString Sorting.Sorted Sorting.Permutation.
From stdpp Require Import base decidable option list strings gmap.

(* stdpp's solvers clear hypotheses that are not always there *)
#[local] Set Warnings "-clear-no-such-hyp".

Local Open Scope string_scope.
Local Open Scope Z_scope.

(** ** types/financial.ts *)

(** ['annual' | 'quarter'] *)
Inductive PeriodType := Annual | Quarter.

#[global] Instance PeriodType_eq_dec : EqDecision PeriodType.
Proof. solve_decision. Defined.

(** The string a [PeriodType] is at run time. *)
Definition PeriodType_str (p : PeriodType) : string :=
  match p with Annual => "annual" | Quarter => "quarter" end.

Record StockSearchResult := {
  sr_symbol : string;
  organName : string;
  sr_exchange : option string
}.

Record FetchDataRequest := {
  period_type : PeriodType;
  years : Z
}.

(** ** JavaScript values that travel in a query string *)

Inductive JsValue :=
| JStr (s : string)
| JNum (n : Z)
| JBool (b : bool).

#[global] Instance JsValue_eq_dec : EqDecision JsValue.
Proof. solve_decision. Defined.

(** [if (v)]: the empty string, [0] and [false] are falsy. *)
Definition truthy (v : JsValue) : bool :=
  match v with
  | JStr s => negb (String.eqb s "")
  | JNum n => negb (n =? 0)
  | JBool b => b
  end.

(** [if (x) params.k = x] for an optional argument [x]: [undefined] is
    falsy, a present value is tested with [truthy]. *)
Definition set_if_truthy (k : string) (x : option JsValue)
    (params : gmap string JsValue) : gmap string JsValue :=
  match x with
  | Some v => if truthy v then <[k := v]> params else params
  | None => params
  end.

(** The year a read sends: the one given, unless it is 0. *)
Definition sent_year (year : option Z) : option JsValue :=
  match year with
  | Some y => if y =? 0 then None else Some (JNum y)
  | None => None
  end.

(** ** services/api.ts *)

Module Api.

Definition DEFAULT_TIMEOUT : Z := 30000.
Definition FETCH_TIMEOUT : Z := 60000.

Inductive Method := GET | POST | DELETE.

(** What [axios.create] is given. *)
Record AxiosInstance := {
  baseURL : string;
  headers : list (string * string);
  inst_timeout : Z
}.

(** The per-call config object; a key left out is [None]. *)
Record AxiosConfig := {
  cfg_params : option (gmap string JsValue);
  cfg_timeout : option Z
}.

Definition no_config : AxiosConfig :=
  {| cfg_params := None; cfg_timeout := None |}.

(** The request that leaves the client. *)
Record Request := {
  method : Method;
  req_base : string;
  url : string;
  params : gmap string JsValue;
  data : option FetchDataRequest;
  timeout : Z
}.

(** axios merges the call's config over the instance's: a [timeout]
    given at the call wins, otherwise the instance's applies. *)
Definition send (inst : AxiosInstance) (m : Method) (u : string)
    (body : option FetchDataRequest) (cfg : AxiosConfig) : Request :=
  {| method := m;
     req_base := baseURL inst;
     url := u;
     params := default ∅ (cfg_params cfg);
     data := body;
     timeout := default (inst_timeout inst) (cfg_timeout cfg) |}.

Definition get inst u cfg := send inst GET u None cfg.
Definition post inst u body cfg := send inst POST u (Some body) cfg.
Definition delete inst u := send inst DELETE u None no_config.

(** [import.meta.env.VITE_API_URL || ''] *)
Definition API_URL (VITE_API_URL : option string) : string :=
  match VITE_API_URL with
  | Some s => if truthy (JStr s) then s else ""
  | None => ""
  end.

Section stockApi.
Variable VITE_API_URL : option string.

Definition api : AxiosInstance :=
  {| baseURL := API_URL VITE_API_URL ++ "/api";
     headers := [("Content-Type", "application/json")];
     inst_timeout := DEFAULT_TIMEOUT |}.

Definition listStocks : Request :=
  get api "/stocks" no_config.

Definition searchStocks (query : string) : Request :=
  get api "/stocks/search"
    {| cfg_params := Some {["q" := JStr query]}; cfg_timeout := None |}.

Definition getStock (symbol : string) : Request :=
  get api ("/stocks/" ++ symbol) no_config.

(** [request || { period_type: 'annual', years: 6 }] and
    [lang: string = 'vi']: an object is always truthy, so the default
    body is taken exactly when no request is passed. *)
Definition fetchStockData (symbol : string)
    (request : option FetchDataRequest) (lang : option string) : Request :=
  let lang := default "vi" lang in
  post api ("/stocks/" ++ symbol ++ "/fetch")
    (default {| period_type := Annual; years := 6 |} request)
    {| cfg_params := Some {["lang" := JStr lang]};
       cfg_timeout := Some FETCH_TIMEOUT |}.

(** The body shared by the three single-category reads. *)
Definition category_params (year : option Z)
    (periodType : option PeriodType) : gmap string JsValue :=
  let params : gmap string JsValue := ∅ in
  let params := set_if_truthy "year" (JNum <$> year) params in
  let params :=
    set_if_truthy "period_type" (JStr ∘ PeriodType_str <$> periodType) params in
  params.

Definition getBalanceSheets (symbol : string) (year : option Z)
    (periodType : option PeriodType) : Request :=
  let params := category_params year periodType in
  get api ("/stocks/" ++ symbol ++ "/balance-sheet")
    {| cfg_params := Some params; cfg_timeout := None |}.

Definition getIncomeStatements (symbol : string) (year : option Z)
    (periodType : option PeriodType) : Request :=
  let params := category_params year periodType in
  get api ("/stocks/" ++ symbol ++ "/income-statement")
    {| cfg_params := Some params; cfg_timeout := None |}.

Definition getCashFlowStatements (symbol : string) (year : option Z)
    (periodType : option PeriodType) : Request :=
  let params := category_params year periodType in
  get api ("/stocks/" ++ symbol ++ "/cash-flow")
    {| cfg_params := Some params; cfg_timeout := None |}.

(** [periodType: PeriodType = 'annual'], [lang: string = 'vi'] *)
Definition getAllReports (symbol : string) (year : option Z)
    (periodType : option PeriodType) (lang : option string) : Request :=
  let periodType := default Annual periodType in
  let lang := default "vi" lang in
  let params : gmap string JsValue :=
    <["auto_fetch" := JBool true]>
      (<["lang" := JStr lang]>
         {["period_type" := JStr (PeriodType_str periodType)]}) in
  let params := set_if_truthy "year" (JNum <$> year) params in
  get api ("/stocks/" ++ symbol ++ "/reports")
    {| cfg_params := Some params; cfg_timeout := Some FETCH_TIMEOUT |}.

Definition getFetchStatus (symbol : string) : Request :=
  get api ("/stocks/" ++ symbol ++ "/status") no_config.

Definition deleteStock (symbol : string) : Request :=
  delete api ("/stocks/" ++ symbol).

End stockApi.

End Api.

(** ** Numbers as the table shows them *)

(** A finite number as the decimal the formatter sees:
    [(-1)^neg * mant / 10^scale]. Every finite double has such an
    expansion; a JSON response carries no other number. [neg] with
    [mant = 0] is the negative zero. *)
Record Decimal := {
  neg : bool;
  mant : N;
  scale : nat
}.

Definition Decimal_of_Z (z : Z) : Decimal :=
  {| neg := z <? 0; mant := Z.abs_N z; scale := 0 |}.

(** [number | null], and the [undefined] a missing field reads as. *)
Inductive Nullable :=
| Null
| Undefined
| Num (v : Decimal).

Module Intl.

Definition is_digit (c : ascii) : bool :=
  ((48 <=? nat_of_ascii c) && (nat_of_ascii c <=? 57))%nat.

(** A text that shows at least one decimal digit. *)
Definition has_digit (s : string) : Prop :=
  ∃ c, In c (list_ascii_of_string s) ∧ is_digit c = true.

(** The decimal digits of a natural number, most significant first. *)
Definition digit_chars (n : N) : list ascii :=
  list_ascii_of_string (NilZero.string_of_uint (N.to_uint n)).

(** Digits in groups of three, counted from the right; [ds] is given
    least significant digit first, [k] digits are left in the group. *)
Fixpoint group_rev (sep : ascii) (k : nat) (ds : list ascii) : list ascii :=
  match ds with
  | [] => []
  | d :: ds' =>
      match k with
      | O => sep :: d :: group_rev sep 2 ds'
      | S k' => d :: group_rev sep k' ds'
      end
  end.

Definition group3 (sep : ascii) (ds : list ascii) : list ascii :=
  rev (group_rev sep 3 (rev ds)).

Fixpoint strip_trailing_zeros (ds : list ascii) : list ascii :=
  match ds with
  | [] => []
  | d :: ds' =>
      match strip_trailing_zeros ds' with
      | [] => if Ascii.eqb d "0" then [] else [d]
      | r => d :: r
      end
  end.

Definition pad_left (k : nat) (ds : list ascii) : list ascii :=
  replicate (k - length ds) "0"%char ++ ds.

(** The value in units of [10^-maxfrac], rounded half away from zero
    (the formatter's default rounding). *)
Definition round_units (maxfrac : nat) (d : Decimal) : N :=
  if (scale d <=? maxfrac)%nat
  then (mant d * 10 ^ N.of_nat (maxfrac - scale d))%N
  else
    let p := (10 ^ N.of_nat (scale d - maxfrac))%N in
    let q := (mant d / p)%N in
    let r := (mant d mod p)%N in
    if (p <=? 2 * r)%N then (q + 1)%N else q.

Record Symbols := { group_sep : ascii; decimal_sep : ascii }.

(** The two locales the table asks for; anything else is formatted as
    en-US here. *)
Definition symbols (localeCode : string) : Symbols :=
  if String.eqb localeCode "vi-VN"
  then {| group_sep := "."; decimal_sep := "," |}
  else {| group_sep := ","; decimal_sep := "." |}.

(** [value.toLocaleString(localeCode, { maximumFractionDigits })]:
    sign, grouped integer digits and, when any is left after rounding,
    the fraction digits without trailing zeros. *)
Definition toLocaleString (localeCode : string) (maximumFractionDigits : nat)
    (d : Decimal) : string :=
  let sy := symbols localeCode in
  let units := round_units maximumFractionDigits d in
  let p := (10 ^ N.of_nat maximumFractionDigits)%N in
  let int_part := (units / p)%N in
  let frac_part := (units mod p)%N in
  let frac :=
    strip_trailing_zeros (pad_left maximumFractionDigits (digit_chars frac_part)) in
  string_of_list_ascii
    ((if neg d then ["-"%char] else []) ++
     group3 (group_sep sy) (digit_chars int_part) ++
     (match frac with [] => [] | _ => decimal_sep sy :: frac end)).

End Intl.

(** ** types/financial.ts, the three statements

    [BalanceSheet], [IncomeStatement] and [CashFlowStatement] share the
    header fields and differ in the names of their numeric line items,
    which the table reads by name; [items] holds them. A name bound to
    [None] is a [null] field. *)
Record Statement := {
  id : Z;
  stock_id : Z;
  st_period_type : PeriodType;
  year : Z;
  quarter : option Z;
  period : string;
  items : gmap string (option Decimal)
}.

Definition BalanceSheet := Statement.
Definition IncomeStatement := Statement.
Definition CashFlowStatement := Statement.

(** The numeric line items each interface declares, in its order. *)
Definition BalanceSheet_fields : list string :=
  [ "total_assets"; "current_assets"; "cash_and_equivalents";
    "short_term_investments"; "accounts_receivable"; "inventory";
    "non_current_assets"; "fixed_assets"; "long_term_investments";
    "total_liabilities"; "current_liabilities"; "short_term_debt";
    "accounts_payable"; "non_current_liabilities"; "long_term_debt";
    "total_equity"; "share_capital"; "retained_earnings"; "minority_interest" ].

Definition IncomeStatement_fields : list string :=
  [ "revenue"; "cost_of_revenue"; "gross_profit";
    "operating_expenses"; "selling_expenses"; "administrative_expenses";
    "operating_income";
    "interest_expense"; "interest_income"; "other_income"; "other_expenses";
    "profit_before_tax"; "income_tax"; "net_income"; "net_income_attributable";
    "eps" ].

Definition CashFlowStatement_fields : list string :=
  [ "operating_cash_flow"; "net_income_cf"; "depreciation";
    "changes_in_working_capital";
    "investing_cash_flow"; "capital_expenditure"; "investments_purchases";
    "investments_sales";
    "financing_cash_flow"; "debt_issued"; "debt_repaid"; "dividends_paid";
    "stock_issued"; "stock_repurchased";
    "net_change_in_cash"; "beginning_cash"; "ending_cash" ].

(** A statement object that carries exactly the line items [fields],
    each a number or [null]. *)
Definition has_fields (fields : list string) (item : Statement) : Prop :=
  dom (items item) = (list_to_set fields : gset string).

(** A statement of a given year with one line item, to run the page on
    examples. *)
Definition sample_statement (n : Z) (y : Z) (k : string) (v : option Decimal)
    : Statement :=
  {| id := n; stock_id := 1; st_period_type := Annual; year := y;
     quarter := None; period := "FY"; items := {[k := v]} |}.

(** ** components/FinancialTable.tsx *)

Module FinancialTable.

Definition formatNumber (value : Nullable) (locale : string) : string :=
  match value with
  | Null | Undefined => "-"
  | Num v =>
      let localeCode := if String.eqb locale "vi" then "vi-VN" else "en-US" in
      Intl.toLocaleString localeCode 10 v
  end.

Definition getValueClass (value : Nullable) : string :=
  match value with
  | Null | Undefined => ""
  | Num v =>
      if neg v && negb (mant v =? 0)%N then "number-negative"
      else "number-positive"
  end.

(** [item[row.key]] *)
Definition field (item : Statement) (key : string) : Nullable :=
  match items item !! key with
  | Some (Some v) => Num v
  | Some None => Null
  | None => Undefined
  end.

(** The text of one table cell. *)
Definition cell (item : Statement) (key : string) (locale : string) : string :=
  formatNumber (field item key) locale.

(** ['balance_sheet' | 'income_statement' | 'cash_flow'], the
    [ReportType] of the table and the [TabType] of the application. *)
Inductive ReportType := balance_sheet | income_statement | cash_flow.

Record TableRow := {
  labelKey : string;
  key : string;
  indent : option Z
}.

Definition row0 (l k : string) : TableRow :=
  {| labelKey := l; key := k; indent := None |}.
Definition row1 (l k : string) : TableRow :=
  {| labelKey := l; key := k; indent := Some 1 |}.
Definition row2 (l k : string) : TableRow :=
  {| labelKey := l; key := k; indent := Some 2 |}.

Definition balanceSheetRows : list TableRow :=
  [ row0 "balanceSheet.totalAssets" "total_assets";
    row1 "balanceSheet.currentAssets" "current_assets";
    row2 "balanceSheet.cashAndEquivalents" "cash_and_equivalents";
    row2 "balanceSheet.shortTermInvestments" "short_term_investments";
    row2 "balanceSheet.accountsReceivable" "accounts_receivable";
    row2 "balanceSheet.inventory" "inventory";
    row1 "balanceSheet.nonCurrentAssets" "non_current_assets";
    row2 "balanceSheet.fixedAssets" "fixed_assets";
    row2 "balanceSheet.longTermInvestments" "long_term_investments";
    row0 "balanceSheet.totalLiabilities" "total_liabilities";
    row1 "balanceSheet.currentLiabilities" "current_liabilities";
    row2 "balanceSheet.shortTermDebt" "short_term_debt";
    row2 "balanceSheet.accountsPayable" "accounts_payable";
    row1 "balanceSheet.nonCurrentLiabilities" "non_current_liabilities";
    row2 "balanceSheet.longTermDebt" "long_term_debt";
    row0 "balanceSheet.totalEquity" "total_equity";
    row1 "balanceSheet.shareCapital" "share_capital";
    row1 "balanceSheet.retainedEarnings" "retained_earnings";
    row1 "balanceSheet.minorityInterest" "minority_interest" ].

Definition incomeStatementRows : list TableRow :=
  [ row0 "incomeStatement.revenue" "revenue";
    row0 "incomeStatement.costOfRevenue" "cost_of_revenue";
    row0 "incomeStatement.grossProfit" "gross_profit";
    row0 "incomeStatement.operatingExpenses" "operating_expenses";
    row1 "incomeStatement.sellingExpenses" "selling_expenses";
    row1 "incomeStatement.administrativeExpenses" "administrative_expenses";
    row0 "incomeStatement.operatingIncome" "operating_income";
    row0 "incomeStatement.interestIncome" "interest_income";
    row0 "incomeStatement.interestExpense" "interest_expense";
    row0 "incomeStatement.otherIncome" "other_income";
    row0 "incomeStatement.otherExpenses" "other_expenses";
    row0 "incomeStatement.profitBeforeTax" "profit_before_tax";
    row0 "incomeStatement.incomeTax" "income_tax";
    row0 "incomeStatement.netIncome" "net_income";
    row0 "incomeStatement.netIncomeAttributable" "net_income_attributable";
    row0 "incomeStatement.eps" "eps" ].

Definition cashFlowRows : list TableRow :=
  [ row0 "cashFlow.operatingCashFlow" "operating_cash_flow";
    row1 "cashFlow.netIncomeCf" "net_income_cf";
    row1 "cashFlow.depreciation" "depreciation";
    row1 "cashFlow.changesInWorkingCapital" "changes_in_working_capital";
    row0 "cashFlow.investingCashFlow" "investing_cash_flow";
    row1 "cashFlow.capitalExpenditure" "capital_expenditure";
    row1 "cashFlow.investmentPurchases" "investments_purchases";
    row1 "cashFlow.investmentSales" "investments_sales";
    row0 "cashFlow.financingCashFlow" "financing_cash_flow";
    row1 "cashFlow.debtIssued" "debt_issued";
    row1 "cashFlow.debtRepaid" "debt_repaid";
    row1 "cashFlow.dividendsPaid" "dividends_paid";
    row1 "cashFlow.stockIssued" "stock_issued";
    row1 "cashFlow.stockRepurchased" "stock_repurchased";
    row0 "cashFlow.netChangeInCash" "net_change_in_cash";
    row0 "cashFlow.beginningCash" "beginning_cash";
    row0 "cashFlow.endingCash" "ending_cash" ].

Definition getRows (reportType : ReportType) : list TableRow :=
  match reportType with
  | balance_sheet => balanceSheetRows
  | income_statement => incomeStatementRows
  | cash_flow => cashFlowRows
  end.

(** The props [balanceSheets = []] and the like: a prop left out is the
    empty array. *)
Definition getData (reportType : ReportType)
    (balanceSheets : option (list BalanceSheet))
    (incomeStatements : option (list IncomeStatement))
    (cashFlowStatements : option (list CashFlowStatement)) : list Statement :=
  match reportType with
  | balance_sheet => default [] balanceSheets
  | income_statement => default [] incomeStatements
  | cash_flow => default [] cashFlowStatements
  end.

(** The line items the interface of a report type declares. *)
Definition fields_of (reportType : ReportType) : list string :=
  match reportType with
  | balance_sheet => BalanceSheet_fields
  | income_statement => IncomeStatement_fields
  | cash_flow => CashFlowStatement_fields
  end.

(** One [<td>] of the body: its class and its text. *)
Record Cell := {
  className : string;
  text : string
}.

(** One [<tr>] of the body. *)
Record BodyRow := {
  row_key : string;
  label : string;
  paddingLeft : Z;       (* in px *)
  cells : list Cell
}.

(** What the component returns: the no-data message, or the table with
    its header cells and body rows. *)
Inductive Rendered :=
| NoData (message : string)
| Table (head : list string) (body : list BodyRow).

Section Component.
(** [t] and [i18n.language] of [useTranslation]. *)
Variable t : string → string.
Variable locale : string.

Definition FinancialTable (reportType : ReportType)
    (balanceSheets : option (list BalanceSheet))
    (incomeStatements : option (list IncomeStatement))
    (cashFlowStatements : option (list CashFlowStatement)) : Rendered :=
  let rows := getRows reportType in
  let data := getData reportType balanceSheets incomeStatements cashFlowStatements in
  if (length data =? 0)%nat then NoData (t "common.noData")
  else
    Table (t "table.item" :: map period data)
      (map (λ row,
         {| row_key := key row;
            label := t (labelKey row);
            paddingLeft := default 0 (indent row) * 16 + 16;
            cells := map (λ item,
                       let value := field item (key row) in
                       {| className := "text-right " ++ getValueClass value;
                          text := formatNumber value locale |}) data |})
         rows).
End Component.

(** A statement of the given type with every line item [null], to run
    the table on examples. *)
Definition blank_statement (reportType : ReportType) (y : Z) : Statement :=
  {| id := 1; stock_id := 1; st_period_type := Annual; year := y;
     quarter := None; period := "FY";
     items := list_to_map ((λ k, (k, None)) <$> fields_of reportType) |}.

End FinancialTable.

(** ** Array helpers of the run time *)

(** [Array.prototype.sort(compareFn)]: the stable arrangement in which
    no element is followed by one that [compareFn] puts strictly before
    it, built here by insertion. [leb x y] reads [compareFn(x, y) <= 0]. *)
Section Sort.
Context {A : Type} (leb : A → A → bool).

Fixpoint insert_by (x : A) (l : list A) : list A :=
  match l with
  | [] => [x]
  | y :: l' => if leb x y then x :: l else y :: insert_by x l'
  end.

Definition sort_by (l : list A) : list A := foldr insert_by [] l.
End Sort.

Definition js_sort {A} (compareFn : A → A → Z) : list A → list A :=
  sort_by (λ a b, compareFn a b <=? 0).

(** [Array.prototype.includes] on numbers. *)
Fixpoint includes (l : list Z) (x : Z) : bool :=
  match l with
  | [] => false
  | y :: l' => (y =? x) || includes l' x
  end.

(** [Set.prototype.add]: a [Set] keeps its members in insertion order
    and ignores a value it already has. *)
Definition set_add (s : list Z) (x : Z) : list Z :=
  if includes s x then s else s ++ [x].

(** ** App.tsx *)

Module App.

Definition updateAvailableYears (bs : list BalanceSheet)
    (is_ : list IncomeStatement) (cf : list CashFlowStatement) : list Z :=
  let years := fold_left (λ years item, set_add years (year item))
                 (bs ++ is_ ++ cf) [] in
  js_sort (λ a b, b - a) years.

Definition toggleYear (year : Z) (prev : list Z) : list Z :=
  if includes prev year
  then List.filter (λ y, negb (y =? year)) prev
  else js_sort (λ a b, b - a) (prev ++ [year]).

Definition selectAllYears : list Z := [].

(** Filter data by selected years (empty array = all years). *)
Definition filteredBalanceSheets (selectedYears : list Z)
    (balanceSheets : list BalanceSheet) : list BalanceSheet :=
  if (length selectedYears =? 0)%nat
  then balanceSheets
  else List.filter (λ bs, includes selectedYears (year bs)) balanceSheets.

Definition filteredIncomeStatements (selectedYears : list Z)
    (incomeStatements : list IncomeStatement) : list IncomeStatement :=
  if (length selectedYears =? 0)%nat
  then incomeStatements
  else List.filter (λ is_, includes selectedYears (year is_)) incomeStatements.

Definition filteredCashFlowStatements (selectedYears : list Z)
    (cashFlowStatements : list CashFlowStatement) : list CashFlowStatement :=
  if (length selectedYears =? 0)%nat
  then cashFlowStatements
  else List.filter (λ cf, includes selectedYears (year cf)) cashFlowStatements.

(** *** The component's state and handlers

    [Stock] of types/financial.ts and [ReportsResponse] of
    services/api.ts, as the handlers read them. *)
Record Stock := {
  id : Z;
  symbol : string;
  name : option string;
  exchange : option string;
  created_at : option string;
  updated_at : option string
}.

Record ReportsResponse := {
  stock : option Stock;
  balance_sheets : list BalanceSheet;
  income_statements : list IncomeStatement;
  cash_flow_statements : list CashFlowStatement;
  status : string;
  fetch_status : string
}.

(** What a rejected request throws, as far as [getErrorMessage] looks. *)
Record JsError := {
  isAxiosError : bool;
  code : option string
}.

(** The [useState] cells of [App], and [i18n.language]. *)
Record State := {
  selectedSymbol : option string;
  shownStock : option Stock;            (* the cell [stock] *)
  activeTab : FinancialTable.ReportType;
  periodType : PeriodType;
  selectedYears : list Z;
  availableYears : list Z;
  balanceSheets : list BalanceSheet;
  incomeStatements : list IncomeStatement;
  cashFlowStatements : list CashFlowStatement;
  isLoading : bool;
  fetchStatus : string;
  error : option string;
  language : string
}.

Definition init (language : string) : State :=
  {| selectedSymbol := None; shownStock := None;
     activeTab := FinancialTable.balance_sheet; periodType := Annual;
     selectedYears := []; availableYears := [];
     balanceSheets := []; incomeStatements := []; cashFlowStatements := [];
     isLoading := false; fetchStatus := "idle"; error := None;
     language := language |}.

(** One event of the page. A handler that awaits is one event up to its
    first [await] and one per continuation; a continuation event carries
    what the handler's closure holds. *)
Inductive Event :=
| HandleStockSelect (symbol : string)
| SelectResolved (reports : ReportsResponse)
| SelectRejected (err : JsError)
| RefreshData
| RefreshFetched (symbol : string) (periodType : PeriodType) (language : string)
| RefreshResolved (reports : ReportsResponse)
| RefreshRejected (err : JsError)
| SetPeriodType (periodType : PeriodType)
| LoadResolved (reports : ReportsResponse)
| LoadRejected
| ToggleYear (year : Z)
| SelectAllYears
| SetActiveTab (tab : FinancialTable.ReportType)
| ChangeLanguage (lang : string).

(** [!selectedSymbol]: [null] and the empty string are falsy. *)
Definition hasSymbol (s : State) : option string :=
  match selectedSymbol s with
  | Some sym => if truthy (JStr sym) then Some sym else None
  | None => None
  end.

Section Component.
(** [t] of [useTranslation], and the environment of the API client. *)
Variable t : string → string.
Variable VITE_API_URL : option string.

Definition getErrorMessage (err : JsError) (defaultKey : string) : string :=
  if isAxiosError err && bool_decide (code err = Some "ECONNABORTED")
  then t "common.timeoutError"
  else t defaultKey.

(** The setters every successful load calls: [setStock], the three
    arrays and [updateAvailableYears]. *)
Definition storeReports (reports : ReportsResponse) (fetchStatus' : string)
    (s : State) : State :=
  {| selectedSymbol := selectedSymbol s;
     shownStock := stock reports;
     activeTab := activeTab s; periodType := periodType s;
     selectedYears := selectedYears s;
     availableYears :=
       updateAvailableYears (balance_sheets reports) (income_statements reports)
         (cash_flow_statements reports);
     balanceSheets := balance_sheets reports;
     incomeStatements := income_statements reports;
     cashFlowStatements := cash_flow_statements reports;
     isLoading := false;
     fetchStatus := fetchStatus';
     error := error s;
     language := language s |}.

(** The [catch] and [finally] of a handler. *)
Definition failed (error' : option string) (fetchStatus' : string) (s : State) : State :=
  {| selectedSymbol := selectedSymbol s; shownStock := shownStock s;
     activeTab := activeTab s; periodType := periodType s;
     selectedYears := selectedYears s; availableYears := availableYears s;
     balanceSheets := balanceSheets s; incomeStatements := incomeStatements s;
     cashFlowStatements := cashFlowStatements s;
     isLoading := false;
     fetchStatus := fetchStatus';
     error := error';
     language := language s |}.

(** The start of a handler, up to its request. *)
Definition started (symbol' : option string) (periodType' : PeriodType)
    (fetchStatus' : string) (error' : option string) (s : State) : State :=
  {| selectedSymbol := symbol'; shownStock := shownStock s;
     activeTab := activeTab s; periodType := periodType';
     selectedYears := selectedYears s; availableYears := availableYears s;
     balanceSheets := balanceSheets s; incomeStatements := incomeStatements s;
     cashFlowStatements := cashFlowStatements s;
     isLoading := true;
     fetchStatus := fetchStatus';
     error := error';
     language := language s |}.


Definition step (s : State) (e : Event) : State * list Api.Request :=
  match e with
  | HandleStockSelect symbol =>
      (started (Some symbol) (periodType s) "loading" None s,
       [Api.getAllReports VITE_API_URL symbol None (Some (periodType s))
          (Some (language s))])
  | SelectResolved reports =>
      (storeReports reports
         (if truthy (JStr (fetch_status reports)) then fetch_status reports
          else "completed") s, [])
  | SelectRejected err =>
      (failed (Some (getErrorMessage err "common.fetchError")) "error" s, [])
  | RefreshData =>
      match hasSymbol s with
      | None => (s, [])
      | Some symbol =>
          (started (selectedSymbol s) (periodType s) "fetching" None s,
           [Api.fetchStockData VITE_API_URL symbol
              (Some {| period_type := periodType s; years := 6 |})
              (Some (language s))])
      end
  | RefreshFetched symbol periodType language =>
      (s, [Api.getAllReports VITE_API_URL symbol None (Some periodType)
             (Some language)])
  | RefreshResolved reports => (storeReports reports "completed" s, [])
  | RefreshRejected err =>
      (failed (Some (getErrorMessage err "common.refreshError")) "error" s, [])
  | SetPeriodType periodType' =>
      if decide (periodType' = periodType s) then (s, [])
      else
        (* the effect on [periodType]: [loadReports] *)
        match hasSymbol s with
        | None =>
            ({| selectedSymbol := selectedSymbol s; shownStock := shownStock s;
                activeTab := activeTab s; periodType := periodType';
                selectedYears := selectedYears s;
                availableYears := availableYears s;
                balanceSheets := balanceSheets s;
                incomeStatements := incomeStatements s;
                cashFlowStatements := cashFlowStatements s;
                isLoading := isLoading s; fetchStatus := fetchStatus s;
                error := error s; language := language s |}, [])
        | Some symbol =>
            (started (selectedSymbol s) periodType' (fetchStatus s) (error s) s,
             [Api.getAllReports VITE_API_URL symbol None (Some periodType')
                (Some (language s))])
        end
  | LoadResolved reports => (storeReports reports (fetchStatus s) s, [])
  | LoadRejected => (failed (error s) (fetchStatus s) s, [])
  | ToggleYear year =>
      ({| selectedSymbol := selectedSymbol s; shownStock := shownStock s;
          activeTab := activeTab s; periodType := periodType s;
          selectedYears := toggleYear year (selectedYears s);
          availableYears := availableYears s;
          balanceSheets := balanceSheets s;
          incomeStatements := incomeStatements s;
          cashFlowStatements := cashFlowStatements s;
          isLoading := isLoading s; fetchStatus := fetchStatus s;
          error := error s; language := language s |}, [])
  | SelectAllYears =>
      ({| selectedSymbol := selectedSymbol s; shownStock := shownStock s;
          activeTab := activeTab s; periodType := periodType s;
          selectedYears := selectAllYears;
          availableYears := availableYears s;
          balanceSheets := balanceSheets s;
          incomeStatements := incomeStatements s;
          cashFlowStatements := cashFlowStatements s;
          isLoading := isLoading s; fetchStatus := fetchStatus s;
          error := error s; language := language s |}, [])
  | SetActiveTab tab =>
      ({| selectedSymbol := selectedSymbol s; shownStock := shownStock s;
          activeTab := tab; periodType := periodType s;
          selectedYears := selectedYears s;
          availableYears := availableYears s;
          balanceSheets := balanceSheets s;
          incomeStatements := incomeStatements s;
          cashFlowStatements := cashFlowStatements s;
          isLoading := isLoading s; fetchStatus := fetchStatus s;
          error := error s; language := language s |}, [])
  | ChangeLanguage lang =>
      ({| selectedSymbol := selectedSymbol s; shownStock := shownStock s;
          activeTab := activeTab s; periodType := periodType s;
          selectedYears := selectedYears s;
          availableYears := availableYears s;
          balanceSheets := balanceSheets s;
          incomeStatements := incomeStatements s;
          cashFlowStatements := cashFlowStatements s;
          isLoading := isLoading s; fetchStatus := fetchStatus s;
          error := error s; language := lang |}, [])
  end.

Fixpoint run (s : State) (es : list Event) : State * list Api.Request :=
  match es with
  | [] => (s, [])
  | e :: es' =>
      let '(s1, out1) := step s e in
      let '(s2, out2) := run s1 es' in
      (s2, (out1 ++ out2)%list)
  end.

(** The [FinancialTable] element of the page: it is rendered when
    [!isLoading && selectedSymbol], on the year-filtered arrays. *)
Definition table (s : State) : option FinancialTable.Rendered :=
  match negb (isLoading s), hasSymbol s with
  | true, Some _ =>
      Some (FinancialTable.FinancialTable t (language s) (activeTab s)
              (Some (filteredBalanceSheets (selectedYears s) (balanceSheets s)))
              (Some (filteredIncomeStatements (selectedYears s) (incomeStatements s)))
              (Some (filteredCashFlowStatements (selectedYears s) (cashFlowStatements s))))
  | _, _ => None
  end.
End Component.

(** The year buttons are those of the rows held. *)
Definition years_match (s : State) : Prop :=
  availableYears s
  = updateAvailableYears (balanceSheets s) (incomeStatements s)
      (cashFlowStatements s).


(** What a load leaves on the screen: the stock, the three arrays, the
    year buttons and the selection. *)
Definition shown (s : State) :=
  (shownStock s, balanceSheets s, incomeStatements s, cashFlowStatements s,
   availableYears s, selectedYears s).

(** The rows of the active tab, before the year filter. *)
Definition loadedRows (s : State) : list Statement :=
  FinancialTable.getData (activeTab s) (Some (balanceSheets s))
    (Some (incomeStatements s)) (Some (cashFlowStatements s)).

End App.

(** ** components/StockSearch.tsx

    The component as a transition system: one [step] per browser event,
    returning the next state of the hooks and what the handlers call
    outward. [toUpperCase] is the run time's [String.prototype.toUpperCase]. *)

Module StockSearch.

Definition DEBOUNCE_DELAY : Z := 500.

(** [toUpperCase] restricted to ASCII text, to run the component on
    examples. *)
Definition upper_char (c : ascii) : ascii :=
  let n := nat_of_ascii c in
  if ((97 <=? n) && (n <=? 122))%nat then ascii_of_nat (n - 32) else c.

Fixpoint upper_ascii (s : string) : string :=
  match s with
  | EmptyString => EmptyString
  | String c s' => String (upper_char c) (upper_ascii s')
  end.

Record State := {
  query : string;
  debouncedQuery : string;
  results : list StockSearchResult;
  isLoading : bool;
  isOpen : bool;
  (** the value the pending [setTimeout] of [useDebounce] will store *)
  timer : option string
}.

Inductive Event :=
| Change (typed : string)          (* onChange of the input *)
| Elapse                           (* DEBOUNCE_DELAY passes, the timer fires *)
| Resolved (data : list StockSearchResult)  (* a search request answers *)
| Rejected                         (* a search request fails *)
| Focus                            (* onFocus of the input *)
| ClickOutside                     (* mousedown outside input and list *)
| Select (symbol : string).        (* onClick of a result *)

Inductive Effect :=
| Search (r : Api.Request)         (* stockApi.searchStocks(...) *)
| OnSelect (symbol : string).      (* the parent's onSelect(...) *)

(** After the first render and its effects: the search effect saw the
    empty debounced query and the debounce timer is armed with ''. *)
Definition init : State :=
  {| query := ""; debouncedQuery := ""; results := [];
     isLoading := false; isOpen := false; timer := Some "" |}.

Section Component.
Variable toUpperCase : string → string.
Variable VITE_API_URL : option string.

(** [setQuery(q)]: an unchanged value re-runs no effect; a changed one
    makes [useDebounce] clear its timer and arm a new one. *)
Definition setQuery (q : string) (s : State) : State :=
  if String.eqb q (query s) then s
  else {| query := q; debouncedQuery := debouncedQuery s;
          results := results s; isLoading := isLoading s;
          isOpen := isOpen s; timer := Some q |}.

(** The effect on [debouncedQuery]: the inner [searchStocks] up to
    its [await]. *)
Definition searchEffect (s : State) : State * list Effect :=
  if (String.length (debouncedQuery s) <? 1)%nat
  then ({| query := query s; debouncedQuery := debouncedQuery s;
           results := []; isLoading := isLoading s;
           isOpen := isOpen s; timer := timer s |}, [])
  else ({| query := query s; debouncedQuery := debouncedQuery s;
           results := results s; isLoading := true;
           isOpen := isOpen s; timer := timer s |},
        [Search (Api.searchStocks VITE_API_URL (debouncedQuery s))]).

Definition step (s : State) (e : Event) : State * list Effect :=
  match e with
  | Change typed => (setQuery (toUpperCase typed) s, [])
  | Elapse =>
      match timer s with
      | None => (s, [])
      | Some value =>
          let s' := {| query := query s; debouncedQuery := value;
                       results := results s; isLoading := isLoading s;
                       isOpen := isOpen s; timer := None |} in
          if String.eqb value (debouncedQuery s) then (s', [])
          else searchEffect s'
      end
  | Resolved data =>
      ({| query := query s; debouncedQuery := debouncedQuery s;
          results := data; isLoading := false;
          isOpen := true; timer := timer s |}, [])
  | Rejected =>
      ({| query := query s; debouncedQuery := debouncedQuery s;
          results := []; isLoading := false;
          isOpen := isOpen s; timer := timer s |}, [])
  | Focus =>
      ({| query := query s; debouncedQuery := debouncedQuery s;
          results := results s; isLoading := isLoading s;
          isOpen := (0 <? String.length (query s))%nat || isOpen s;
          timer := timer s |}, [])
  | ClickOutside =>
      ({| query := query s; debouncedQuery := debouncedQuery s;
          results := results s; isLoading := isLoading s;
          isOpen := false; timer := timer s |}, [])
  | Select symbol =>
      let s' := setQuery "" s in
      ({| query := query s'; debouncedQuery := debouncedQuery s';
          results := results s'; isLoading := isLoading s';
          isOpen := false; timer := timer s' |}, [OnSelect symbol])
  end.

(** A sequence of events, with everything called on the way. *)
Fixpoint run (s : State) (es : list Event) : State * list Effect :=
  match es with
  | [] => (s, [])
  | e :: es' =>
      let '(s1, out1) := step s e in
      let '(s2, out2) := run s1 es' in
      (s2, (out1 ++ out2)%list)
  end.

(** The armed timer holds '' or the upper-cased text of an earlier
    change event. *)
Definition timer_typed (seen : list Event) (s : State) : Prop :=
  ∀ v, timer s = Some v →
       v = "" ∨ ∃ typed, Change typed ∈ seen ∧ v = toUpperCase typed.

(** The requests [stockApi.searchStocks] was asked to send. *)
Definition searched (out : list Effect) : list Api.Request :=
  omap (λ e, match e with Search r => Some r | OnSelect _ => None end) out.
End Component.

(** The debounce hook has caught up with the query or is waiting on it:
    the armed timer holds the query, or no timer is armed and the
    debounced query is the query. *)
Definition settled (s : State) : Prop :=
  timer s = Some (query s) ∨ (timer s = None ∧ debouncedQuery s = query s).

Definition is_elapse (e : Event) : bool :=
  match e with Elapse => true | _ => false end.

End StockSearch.

(** ** The fetch-and-cache core (server side)

    The server is described by the design document; the definitions of
    this module follow its sections 3, 4.1 and 4.2. *)

Module Backend.

Inductive Category := BalanceSheetCat | IncomeStatementCat | CashFlowCat.

(** Modelled from the spec: the Stock entity of section 3, whose code
    (the server's models) is missing. Symbol is the unique key; the
    timestamps, for which the document gives no rule, are left out. *)
Record Stock := {
  symbol : string;
  name : option string;
  exchange : option string
}.

(** Modelled from the spec: the key (stock, period_type, year,
    quarter-or-null) of a FinancialPeriodRecord; the server's models
    are missing. *)
Record PeriodKey := {
  k_stock : string;
  k_period_type : PeriodType;
  k_year : Z;
  k_quarter : option Z
}.

#[global] Instance PeriodKey_eq_dec : EqDecision PeriodKey.
Proof. solve_decision. Defined.

(** Modelled from the spec: a FinancialPeriodRecord of section 3, its
    key, label and nullable numeric line items. *)
Record PeriodRecord := {
  key : PeriodKey;
  label : string;
  line_items : gmap string (option Decimal)
}.

(** Modelled from the spec: the relational store, one table per report
    category, rows in insertion order. *)
Record Store := {
  stocks : list Stock;
  balance_sheets : list PeriodRecord;
  income_statements : list PeriodRecord;
  cash_flows : list PeriodRecord
}.

Definition empty_store : Store :=
  {| stocks := []; balance_sheets := []; income_statements := [];
     cash_flows := [] |}.

Definition table_of (c : Category) (st : Store) : list PeriodRecord :=
  match c with
  | BalanceSheetCat => balance_sheets st
  | IncomeStatementCat => income_statements st
  | CashFlowCat => cash_flows st
  end.

Definition set_table (c : Category) (t : list PeriodRecord) (st : Store) : Store :=
  match c with
  | BalanceSheetCat =>
      {| stocks := stocks st; balance_sheets := t;
         income_statements := income_statements st; cash_flows := cash_flows st |}
  | IncomeStatementCat =>
      {| stocks := stocks st; balance_sheets := balance_sheets st;
         income_statements := t; cash_flows := cash_flows st |}
  | CashFlowCat =>
      {| stocks := stocks st; balance_sheets := balance_sheets st;
         income_statements := income_statements st; cash_flows := t |}
  end.

Definition keys (t : list PeriodRecord) : list PeriodKey := map key t.

(** The row stored under a key: the first one, should there be more. *)
Definition lookup_key (k : PeriodKey) (t : list PeriodRecord) : option PeriodRecord :=
  find (λ r, bool_decide (key r = k)) t.

(** Modelled from the spec: the upsert of section 4.1, "overwrite if
    the (stock, period_type, year, quarter) key already exists, insert
    otherwise"; the server's storage layer is missing. *)
Fixpoint upsert (r : PeriodRecord) (t : list PeriodRecord) : list PeriodRecord :=
  match t with
  | [] => [r]
  | x :: t' => if decide (key x = key r) then r :: t' else x :: upsert r t'
  end.

Definition upsert_all (rows : list PeriodRecord) (t : list PeriodRecord)
    : list PeriodRecord :=
  fold_left (λ t r, upsert r t) rows t.

(** The row a batch of upserts leaves under key [k], where [before]
    was stored: the last row of the batch with that key, if any. *)
Definition after_batch (k : PeriodKey) (rows : list PeriodRecord)
    (before : option PeriodRecord) : option PeriodRecord :=
  fold_left (λ acc r, if decide (key r = k) then Some r else acc) rows before.

(** Modelled from the spec: the external provider of section 6, asked
    by symbol, window and statement category; [None] is a timeout or an
    error. Two calls with unchanged provider data use the same value. *)
Record ProviderRow := {
  p_year : Z;
  p_quarter : option Z;
  p_label : string;
  p_items : gmap string (option Decimal)
}.

Record Provider := {
  company : string → option (option string * option string);
  statements : string → Category → PeriodType → Z → string
               → option (list ProviderRow)
}.

Inductive ProviderCall :=
| LookupCompany (symbol : string)
| FetchStatements (symbol : string) (c : Category).

(** Modelled from the spec: the three statuses of [ensureData]. *)
Inductive FetchStatus := cached | fetched | error.

(** A ValidationError is surfaced to the caller instead of a status. *)
Inductive Reply :=
| Status (s : FetchStatus)
| ValidationError.

Record Outcome := {
  reply : Reply;
  store : Store;
  calls : list ProviderCall
}.

Definition known (sym : string) (st : Store) : bool :=
  existsb (λ s, String.eqb (symbol s) sym) (stocks st).

(** Modelled from the spec: "resolve or create the Stock entity for
    symbol (querying the external provider for display name/exchange
    if not already known)". *)
Definition resolve_stock (P : Provider) (sym : string) (st : Store)
    : Store * list ProviderCall :=
  if known sym st then (st, [])
  else
    let info := default (None, None) (company P sym) in
    ({| stocks := stocks st ++ [{| symbol := sym; name := info.1; exchange := info.2 |}];
        balance_sheets := balance_sheets st;
        income_statements := income_statements st;
        cash_flows := cash_flows st |},
     [LookupCompany sym]).

Definition to_record (sym : string) (pt : PeriodType) (r : ProviderRow)
    : PeriodRecord :=
  {| key := {| k_stock := sym; k_period_type := pt;
               k_year := p_year r; k_quarter := p_quarter r |};
     label := p_label r;
     line_items := p_items r |}.

(** Modelled from the spec: the (year, quarter) periods a table holds
    for a stock and period type. *)
Definition periods_in (sym : string) (pt : PeriodType) (t : list PeriodRecord)
    : list (Z * option Z) :=
  map (λ r, (k_year (key r), k_quarter (key r)))
    (List.filter (λ r, bool_decide (k_stock (key r) = sym
                                    ∧ k_period_type (key r) = pt)) t).

(** Modelled from the spec: "query local storage for existing periods of
    that type". A period exists locally once every category holds it, so
    that a category that failed is fetched again by the next call. *)
Definition existing (sym : string) (pt : PeriodType) (st : Store)
    : list (Z * option Z) :=
  List.filter (λ p, bool_decide (p ∈ periods_in sym pt (income_statements st)
                                 ∧ p ∈ periods_in sym pt (cash_flows st)))
    (periods_in sym pt (balance_sheets st)).

Definition categories : list Category :=
  [BalanceSheetCat; IncomeStatementCat; CashFlowCat].

(** Modelled from the spec: one call per report category for the full
    window; all rows the provider returned are written, or, on a failure,
    none, and the other categories are still fetched. *)
Definition fetch_category (P : Provider) (sym : string) (pt : PeriodType)
    (yearsBack : Z) (lang : string) (c : Category) (acc : Store * bool)
    : Store * bool :=
  match statements P sym c pt yearsBack lang with
  | Some rows =>
      (set_table c (upsert_all (map (to_record sym pt) rows) (table_of c acc.1)) acc.1,
       acc.2)
  | None => (acc.1, false)
  end.

Definition fetch_all (P : Provider) (sym : string) (pt : PeriodType)
    (yearsBack : Z) (lang : string) (st : Store) : Store * bool :=
  fold_left (λ acc c, fetch_category P sym pt yearsBack lang c acc)
    categories (st, true).

(** What a fetch makes of one table. *)
Definition fetched_table (P : Provider) (sym : string) (pt : PeriodType)
    (yearsBack : Z) (lang : string) (c : Category) (t : list PeriodRecord)
    : list PeriodRecord :=
  match statements P sym c pt yearsBack lang with
  | Some rows => upsert_all (map (to_record sym pt) rows) t
  | None => t
  end.


Section ensureData.
(** Upper-casing of the symbol, and the periods expected to exist
    for a window of [yearsBack] years: the document fixes neither the
    calendar nor the casing rules, both are parameters. *)
Variable normalize : string → string.
Variable expected : PeriodType → Z → list (Z * option Z).

(** Modelled from the spec: missing set = expected periods - existing
    periods. *)
Definition missing (sym : string) (pt : PeriodType) (yearsBack : Z)
    (st : Store) : list (Z * option Z) :=
  List.filter (λ p, bool_decide (p ∉ existing sym pt st)) (expected pt yearsBack).

(** Modelled from the spec: operation [ensureData] of section 4.1,
    whose code (the server's fetch service) is missing. *)
Definition ensureData (P : Provider) (symbol : string) (periodType : PeriodType)
    (yearsBack : Z) (lang : string) (st : Store) : Outcome :=
  let sym := normalize symbol in
  if String.eqb sym "" || (yearsBack <=? 0) then
    {| reply := ValidationError; store := st; calls := [] |}
  else
    let '(st1, looked) := resolve_stock P sym st in
    match missing sym periodType yearsBack st1 with
    | [] => {| reply := Status cached; store := st1; calls := looked |}
    | _ :: _ =>
        let '(st2, ok) := fetch_all P sym periodType yearsBack lang st1 in
        {| reply := Status (if ok then fetched else error);
           store := st2;
           calls := (looked ++ map (FetchStatements sym) categories)%list |}
    end.
End ensureData.

(** *** The reports read (section 4.2) *)

(** Modelled from the spec: year descending, then quarter descending;
    the rows without a quarter are one bucket, placed here before the
    quarters of their year. *)
Definition quarter_geb (a b : option Z) : bool :=
  match a, b with
  | None, _ => true
  | Some _, None => false
  | Some x, Some y => y <=? x
  end.

Definition period_geb (a b : PeriodRecord) : bool :=
  (k_year (key b) <? k_year (key a))
  || ((k_year (key a) =? k_year (key b))
      && quarter_geb (k_quarter (key a)) (k_quarter (key b))).

(** The same order as a relation: [a] may stand before [b]. *)
Definition period_ge (a b : PeriodRecord) : Prop :=
  k_year (key b) < k_year (key a)
  ∨ (k_year (key a) = k_year (key b)
     ∧ match k_quarter (key a), k_quarter (key b) with
       | None, _ => True
       | Some _, None => False
       | Some x, Some y => y ≤ x
       end).

Definition selected (sym : string) (pt : PeriodType) (year : option Z)
    (r : PeriodRecord) : bool :=
  bool_decide (k_stock (key r) = sym) && bool_decide (k_period_type (key r) = pt)
  && match year with Some y => k_year (key r) =? y | None => true end.

(** Modelled from the spec: "Read matching period rows for the given
    periodType (and year filter if provided), ordered by year
    descending, then quarter descending". *)
Definition readPeriods (sym : string) (pt : PeriodType) (year : option Z)
    (t : list PeriodRecord) : list PeriodRecord :=
  sort_by period_geb (List.filter (selected sym pt year) t).

Inductive ReportStatus :=
| not_found
| Propagated (r : Reply)   (* the orchestrator's status *)
| Unfetched.               (* a plain read; the document names no status *)

Record Reports := {
  stock : option Stock;
  balanceSheets : list PeriodRecord;
  incomeStatements : list PeriodRecord;
  cashFlowStatements : list PeriodRecord;
  fetchStatus : ReportStatus
}.

Definition read_all (sym : string) (pt : PeriodType) (year : option Z)
    (st : Store) (status : ReportStatus) : Reports :=
  {| stock := find (λ s, String.eqb (symbol s) sym) (stocks st);
     balanceSheets := readPeriods sym pt year (balance_sheets st);
     incomeStatements := readPeriods sym pt year (income_statements st);
     cashFlowStatements := readPeriods sym pt year (cash_flows st);
     fetchStatus := status |}.

Section getReports.
Variable normalize : string → string.
Variable expected : PeriodType → Z → list (Z * option Z).
(** How many trailing years an automatic fetch asks for. *)
Variable yearsBack : Z.

(** Modelled from the spec: operation [getReports] of section 4.2,
    whose code (the server's router) is missing. It returns the
    result and the store the orchestrator left. *)
Definition getReports (P : Provider) (symbol : string) (periodType : PeriodType)
    (year : option Z) (autoFetch : bool) (lang : string) (st : Store)
    : Reports * Store :=
  let sym := normalize symbol in
  if autoFetch then
    let o := ensureData normalize expected P symbol periodType yearsBack lang st in
    (read_all sym periodType year (store o) (Propagated (reply o)), store o)
  else if known sym st then
    (read_all sym periodType year st Unfetched, st)
  else
    ({| stock := None; balanceSheets := []; incomeStatements := [];
        cashFlowStatements := []; fetchStatus := not_found |}, st).
End getReports.

(** *** A provider and a store to run the orchestrator on *)

Definition vnm_rows : list ProviderRow :=
  [ {| p_year := 2022; p_quarter := None; p_label := "2022";
       p_items := {["revenue" := Some (Decimal_of_Z 59956)]} |};
    {| p_year := 2023; p_quarter := None; p_label := "2023";
       p_items := {["revenue" := Some (Decimal_of_Z 60369)]} |} ].

(** Answers for balance sheets and income statements, fails on cash
    flows. *)
Definition vnm_provider : Provider :=
  {| company := λ _, Some (Some "Vinamilk", Some "HOSE");
     statements := λ _ c _ _ _,
       match c with CashFlowCat => None | _ => Some vnm_rows end |}.

Definition vnm_expected (pt : PeriodType) (yearsBack : Z) : list (Z * option Z) :=
  match pt with
  | Annual => [(2023, None); (2022, None)]
  | Quarter => []
  end.

(** A store that already holds the 2022 income statement, with an
    older figure. *)
Definition vnm_store : Store :=
  {| stocks := [{| symbol := "VNM"; name := None; exchange := None |}];
     balance_sheets := [];
     income_statements :=
       [{| key := {| k_stock := "VNM"; k_period_type := Annual;
                     k_year := 2022; k_quarter := None |};
           label := "2022";
           line_items := {["revenue" := Some (Decimal_of_Z 1)]} |}];
     cash_flows := [] |}.

(** Row counts of the four tables. *)
Definition row_counts (st : Store) : nat * nat * nat * nat :=
  (length (stocks st), length (balance_sheets st),
   length (income_statements st), length (cash_flows st)).

(** The uniqueness invariant of section 3: one stock per symbol, one
    record per key in each table. *)
Definition unique_rows (st : Store) : Prop :=
  NoDup (map symbol (stocks st))
  ∧ NoDup (keys (balance_sheets st))
  ∧ NoDup (keys (income_statements st))
  ∧ NoDup (keys (cash_flows st)).

End Backend.

(** * Properties *)

(** ** The API client *)

Section ApiFacts.
Import Api.
Variable env : option string.

Lemma set_if_truthy_other k k' x (m : gmap string JsValue) :
  k ≠ k' → set_if_truthy k x m !! k' = m !! k'.
Proof.
  intros Hne. unfold set_if_truthy.
  destruct x as [v|]; [|done].
  destruct (truthy v); [|done]. by rewrite lookup_insert_ne.
Qed.

Lemma set_if_truthy_dom k x (m : gmap string JsValue) :
  dom (set_if_truthy k x m) ⊆ {[k]} ∪ dom m.
Proof.
  unfold set_if_truthy.
  destruct x as [v|]; [|set_solver].
  destruct (truthy v); [|set_solver]. rewrite dom_insert_L. set_solver.
Qed.

Lemma category_params_dom year periodType :
  dom (category_params year periodType) ⊆ ({["year"; "period_type"]} : gset string).
Proof.
  unfold category_params.
  etrans; [apply set_if_truthy_dom|].
  pose proof (set_if_truthy_dom "year" (JNum <$> year) ∅) as H.
  rewrite dom_empty_L in H. set_solver.
Qed.

Lemma category_params_year_0 periodType :
  category_params (Some 0) periodType = category_params None periodType.
Proof. reflexivity. Qed.

(** C2: the two operations that can make the server call the external
    provider, [fetchStockData] and [getAllReports], are sent with the
    60 second timeout; the eight pure reads are sent with the
    instance's default of 30 seconds. *)
Theorem timeouts_fetch_60s_reads_30s
    (symbol query : string) (request : option FetchDataRequest)
    (lang : option string) (year : option Z) (periodType : option PeriodType) :
  timeout (fetchStockData env symbol request lang) = 60000
  ∧ timeout (getAllReports env symbol year periodType lang) = 60000
  ∧ timeout (listStocks env) = 30000
  ∧ timeout (searchStocks env query) = 30000
  ∧ timeout (getStock env symbol) = 30000
  ∧ timeout (getBalanceSheets env symbol year periodType) = 30000
  ∧ timeout (getIncomeStatements env symbol year periodType) = 30000
  ∧ timeout (getCashFlowStatements env symbol year periodType) = 30000
  ∧ timeout (getFetchStatus env symbol) = 30000
  ∧ timeout (deleteStock env symbol) = 30000.
Proof. repeat split; reflexivity. Qed.

(** C4: without a request body [fetchStockData] posts period_type
    'annual' and years = 6, a window within the first-load policy of
    5 to 6 trailing years. *)
Theorem fetchStockData_default_body (symbol : string) (lang : option string) :
  ∃ body, data (fetchStockData env symbol None lang) = Some body
          ∧ period_type body = Annual
          ∧ years body = 6
          ∧ 5 ≤ years body ≤ 6.
Proof. eexists; split; [reflexivity|]. cbn. repeat split; lia. Qed.

(** C5: [getAllReports] always sends auto_fetch=true; the three
    single-category reads never send auto_fetch, their query holds at
    most year and period_type. *)
Theorem auto_fetch_only_in_getAllReports
    (symbol : string) (year : option Z) (periodType : option PeriodType)
    (lang : option string) :
  params (getAllReports env symbol year periodType lang) !! "auto_fetch"
    = Some (JBool true)
  ∧ (∀ r, r ∈ [getBalanceSheets env symbol year periodType;
               getIncomeStatements env symbol year periodType;
               getCashFlowStatements env symbol year periodType] →
          params r !! "auto_fetch" = None
          ∧ dom (params r) ⊆ ({["year"; "period_type"]} : gset string)).
Proof.
  split.
  - cbn. by rewrite set_if_truthy_other, lookup_insert_eq.
  - intros r Hr.
    assert (params r = category_params year periodType) as ->.
    { repeat (apply elem_of_cons in Hr as [->|Hr]; [reflexivity|]).
      by apply elem_of_nil in Hr. }
    split; [|apply category_params_dom].
    apply not_elem_of_dom. intros Hin%category_params_dom. set_solver.
Qed.

(** C8: in the four reads that take an optional year, a year of 0 is
    left out of the query like an absent one: the request is the very
    request sent when no year is given. *)
Theorem year_zero_sent_as_no_year
    (symbol : string) (periodType : option PeriodType) (lang : option string) :
  getBalanceSheets env symbol (Some 0) periodType
    = getBalanceSheets env symbol None periodType
  ∧ getIncomeStatements env symbol (Some 0) periodType
    = getIncomeStatements env symbol None periodType
  ∧ getCashFlowStatements env symbol (Some 0) periodType
    = getCashFlowStatements env symbol None periodType
  ∧ getAllReports env symbol (Some 0) periodType lang
    = getAllReports env symbol None periodType lang
  ∧ (∀ r, r ∈ [getBalanceSheets env symbol (Some 0) periodType;
               getIncomeStatements env symbol (Some 0) periodType;
               getCashFlowStatements env symbol (Some 0) periodType;
               getAllReports env symbol (Some 0) periodType lang] →
          params r !! "year" = None).
Proof.
  repeat split; try reflexivity.
  intros r Hr.
  repeat (apply elem_of_cons in Hr as [->|Hr]);
    [ | | | | by apply elem_of_nil in Hr ].
  1-3: cbn; unfold category_params; cbn;
       rewrite set_if_truthy_other by done; apply lookup_empty.
  cbn. by rewrite !lookup_insert_ne, lookup_singleton_ne.
Qed.
End ApiFacts.

(** ** The number format of the table *)

Section FormatFacts.
Import Intl FinancialTable.

Lemma digit_chars_has_digit n :
  ∃ c, In c (digit_chars n) ∧ is_digit c = true.
Proof.
  unfold digit_chars, NilZero.string_of_uint.
  destruct (N.to_uint n); cbn; eexists; (split; [left; reflexivity|reflexivity]).
Qed.

Lemma group_rev_keeps sep c ds : ∀ k, In c ds → In c (group_rev sep k ds).
Proof.
  induction ds as [|d ds IH]; intros k Hin; [done|].
  destruct Hin as [->|Hin]; destruct k; cbn; auto.
Qed.

Lemma group3_keeps sep c ds : In c ds → In c (group3 sep ds).
Proof.
  intros Hin. unfold group3. rewrite <- in_rev.
  apply group_rev_keeps. by rewrite <- in_rev.
Qed.

Lemma toLocaleString_has_digit code maxfrac v :
  has_digit (toLocaleString code maxfrac v).
Proof.
  unfold has_digit, toLocaleString.
  rewrite list_ascii_of_string_of_list_ascii.
  destruct (digit_chars_has_digit
              (round_units maxfrac v / 10 ^ N.of_nat maxfrac)%N) as (c & Hin & Hc).
  exists c. split; [|done].
  apply in_or_app. right. apply in_or_app. left. by apply group3_keeps.
Qed.

Lemma has_digit_not_placeholder s : has_digit s → s ≠ "-".
Proof.
  intros (c & Hin & Hc) ->. cbn in Hin.
  destruct Hin as [<-|[]]. discriminate Hc.
Qed.

(** C3: [formatNumber] shows an absent value ([null], or the
    [undefined] of a missing field) as the placeholder "-"; every
    number is shown by [toLocaleString] in the vi-VN or en-US format,
    a text with at least one digit and so never the placeholder; zero
    is shown as "0". *)
Theorem formatNumber_null_distinct_from_zero (locale : string) :
  formatNumber Null locale = "-"
  ∧ formatNumber Undefined locale = "-"
  ∧ (∀ v, formatNumber (Num v) locale
           = toLocaleString (if String.eqb locale "vi" then "vi-VN" else "en-US") 10 v
         ∧ has_digit (formatNumber (Num v) locale)
         ∧ formatNumber (Num v) locale ≠ formatNumber Null locale)
  ∧ formatNumber (Num (Decimal_of_Z 0)) locale = "0".
Proof.
  split; [done|]. split; [done|]. split.
  - intros v. split; [done|].
    assert (has_digit (formatNumber (Num v) locale)) as Hd
      by apply toLocaleString_has_digit.
    split; [done|]. by apply has_digit_not_placeholder.
  - unfold formatNumber. by destruct (String.eqb locale "vi").
Qed.
End FormatFacts.

(** ** Sorting *)

Section SortFacts.
Context {A : Type} (leb : A → A → bool) (R : A → A → Prop).

Lemma insert_by_perm x l : insert_by leb x l ≡ₚ x :: l.
Proof.
  induction l as [|y l IH]; cbn; [done|].
  destruct (leb x y); [done|]. rewrite IH. apply Permutation_swap.
Qed.

Lemma sort_by_perm l : sort_by leb l ≡ₚ l.
Proof.
  induction l as [|x l IH]; cbn; [done|].
  rewrite insert_by_perm. by rewrite IH.
Qed.

Hypothesis leb_true : ∀ x y, leb x y = true → R x y.
Hypothesis leb_false : ∀ x y, leb x y = false → R y x.

Lemma insert_by_HdRel a x l :
  R a x → HdRel R a l → HdRel R a (insert_by leb x l).
Proof.
  intros Hax Hal. destruct l as [|y l]; cbn; [by constructor|].
  destruct (leb x y); constructor; [done|]. by inversion Hal.
Qed.

Lemma insert_by_sorted x l : Sorted R l → Sorted R (insert_by leb x l).
Proof.
  induction 1 as [|y l Hs IH Hhd]; cbn; [by repeat constructor|].
  destruct (leb x y) eqn:Hxy.
  - constructor; [by constructor|]. constructor. by apply leb_true.
  - constructor; [done|]. apply insert_by_HdRel; [|done]. by apply leb_false.
Qed.

Lemma sort_by_sorted l : Sorted R (sort_by leb l).
Proof.
  induction l as [|x l IH]; cbn; [constructor|]. by apply insert_by_sorted.
Qed.
End SortFacts.

Lemma StronglySorted_strict {A} (R : A → A → Prop) l :
  StronglySorted R l → NoDup l → StronglySorted (λ x y, R x y ∧ x ≠ y) l.
Proof.
  induction 1 as [|x l Hs IH Hall]; intros Hnd; [constructor|].
  apply NoDup_cons in Hnd as [Hx Hnd].
  constructor; [by apply IH|].
  rewrite Forall_forall in Hall |- *. intros y Hy. split; [by apply Hall|].
  intros ->. by apply Hx, list_elem_of_In.
Qed.

Lemma StronglySorted_weaken {A} (R S : A → A → Prop) l :
  (∀ x y, R x y → S x y) → StronglySorted R l → StronglySorted S l.
Proof.
  intros HRS. induction 1 as [|x l Hs IH Hall]; constructor; [done|].
  eapply Forall_impl; [exact Hall|]. auto.
Qed.

Lemma includes_spec l x : includes l x = true ↔ x ∈ l.
Proof.
  induction l as [|y l IH]; cbn.
  - split; [done|]. by intros ?%elem_of_nil.
  - rewrite orb_true_iff, IH, elem_of_cons, Z.eqb_eq. naive_solver.
Qed.

Lemma js_sort_desc_sorted (l : list Z) :
  StronglySorted (λ a b, b ≤ a) (js_sort (λ a b, b - a) l).
Proof.
  apply Sorted_StronglySorted; [intros x y z; lia|].
  apply sort_by_sorted; intros x y H; lia.
Qed.

Lemma js_sort_perm {A} (cmp : A → A → Z) l : js_sort cmp l ≡ₚ l.
Proof. apply sort_by_perm. Qed.

(** ** App.tsx: the year buttons and the year filter *)

Section AppFacts.
Import App.

Lemma set_add_NoDup s x : NoDup s → NoDup (set_add s x).
Proof.
  intros Hnd. unfold set_add. destruct (includes s x) eqn:Hin; [done|].
  apply NoDup_app. split; [done|]. split; [|apply NoDup_singleton].
  intros y Hy ->%list_elem_of_singleton.
  apply includes_spec in Hy. congruence.
Qed.

Lemma set_add_elem s x y : y ∈ set_add s x ↔ y ∈ s ∨ y = x.
Proof.
  unfold set_add. destruct (includes s x) eqn:Hin.
  - apply includes_spec in Hin. naive_solver.
  - rewrite elem_of_app, list_elem_of_singleton. done.
Qed.

Lemma collect_years (items : list Statement) : ∀ acc,
  NoDup acc →
  let years := fold_left (λ years item, set_add years (year item)) items acc in
  NoDup years
  ∧ ∀ y, y ∈ years ↔ y ∈ acc ∨ ∃ item, item ∈ items ∧ year item = y.
Proof.
  induction items as [|item items IH]; intros acc Hnd; cbn.
  - split; [done|]. intros y. split; [auto|].
    intros [?|(item & []%elem_of_nil & _)]; done.
  - destruct (IH (set_add acc (year item)) (set_add_NoDup _ _ Hnd)) as [Hnd' Hel].
    split; [done|]. intros y. rewrite Hel, set_add_elem.
    setoid_rewrite elem_of_cons. naive_solver.
Qed.

Lemma updateAvailableYears_descending bs is_ cf :
  StronglySorted (λ a b, b < a) (updateAvailableYears bs is_ cf)
  ∧ ∀ y, y ∈ updateAvailableYears bs is_ cf
         ↔ ∃ item, item ∈ (bs ++ is_ ++ cf)%list ∧ year item = y.
Proof.
  unfold updateAvailableYears.
  destruct (collect_years (bs ++ is_ ++ cf)%list [] (NoDup_nil_2)) as [Hnd Hel].
  split.
  - eapply StronglySorted_weaken;
      [|apply StronglySorted_strict; [apply js_sort_desc_sorted|]].
    + cbn. intros x y [? ?]. lia.
    + by rewrite js_sort_perm.
  - intros y. rewrite js_sort_perm, Hel. rewrite elem_of_nil. naive_solver.
Qed.

Lemma filter_includes (selectedYears : list Z) (rows : list Statement) :
  List.filter (λ r, includes selectedYears (year r)) rows
  = filter (λ r, year r ∈ selectedYears) rows.
Proof.
  induction rows as [|r rows IH]; [done|].
  rewrite filter_cons. cbn [List.filter]. rewrite IH.
  destruct (includes selectedYears (year r)) eqn:Hin.
  - apply includes_spec in Hin. by rewrite decide_True.
  - rewrite decide_False; [done|]. intros ?%includes_spec. congruence.
Qed.

(** C9: with no year selected each of the three filtered arrays is the
    unfiltered array; with years selected it is the subsequence of the
    rows whose year is selected, in their original order. *)
Theorem year_filter_identity_or_subsequence
    (y : Z) (ys : list Z) (selectedYears : list Z) (rows : list Statement) :
  (filteredBalanceSheets [] rows = rows
   ∧ filteredIncomeStatements [] rows = rows
   ∧ filteredCashFlowStatements [] rows = rows)
  ∧ (filteredBalanceSheets (y :: ys) rows
       = filter (λ r, year r ∈ y :: ys) rows
     ∧ filteredIncomeStatements (y :: ys) rows
       = filter (λ r, year r ∈ y :: ys) rows
     ∧ filteredCashFlowStatements (y :: ys) rows
       = filter (λ r, year r ∈ y :: ys) rows)
  ∧ (filteredBalanceSheets selectedYears rows `sublist_of` rows
     ∧ filteredIncomeStatements selectedYears rows `sublist_of` rows
     ∧ filteredCashFlowStatements selectedYears rows `sublist_of` rows)
  ∧ (∀ r, (r ∈ filteredBalanceSheets (y :: ys) rows
           ↔ r ∈ rows ∧ year r ∈ y :: ys)
        ∧ (r ∈ filteredIncomeStatements (y :: ys) rows
           ↔ r ∈ rows ∧ year r ∈ y :: ys)
        ∧ (r ∈ filteredCashFlowStatements (y :: ys) rows
           ↔ r ∈ rows ∧ year r ∈ y :: ys)).
Proof.
  assert (∀ sel, (if (length sel =? 0)%nat then rows
                  else List.filter (λ r, includes sel (year r)) rows)
                 `sublist_of` rows) as Hsub.
  { intros sel. destruct (length sel =? 0)%nat; [done|].
    rewrite filter_includes. apply sublist_filter. }
  split; [done|]. split; [|split].
  - repeat split; apply filter_includes.
  - repeat split; apply Hsub.
  - intros r.
    change (filteredBalanceSheets (y :: ys) rows)
      with (List.filter (λ r, includes (y :: ys) (year r)) rows).
    change (filteredIncomeStatements (y :: ys) rows)
      with (List.filter (λ r, includes (y :: ys) (year r)) rows).
    change (filteredCashFlowStatements (y :: ys) rows)
      with (List.filter (λ r, includes (y :: ys) (year r)) rows).
    rewrite filter_includes, !list_elem_of_filter. tauto.
Qed.
End AppFacts.

(** ** StockSearch.tsx: what the search box sends *)

Section StockSearchFacts.
Import StockSearch.
Variable toUpperCase : string → string.
Variable env : option string.

Local Abbreviation step := (step toUpperCase env).
Local Abbreviation run := (run toUpperCase env).

Local Abbreviation timer_typed := (timer_typed toUpperCase).

Lemma timer_typed_mono seen seen' s :
  timer_typed seen s → timer_typed (seen ++ seen') s.
Proof.
  intros H v Hv. destruct (H v Hv) as [->|(typed & Hin & ->)]; [by left|].
  right. exists typed. split; [|done]. apply elem_of_app. by left.
Qed.

Lemma setQuery_query q s : query (setQuery q s) = q.
Proof.
  unfold setQuery. destruct (String.eqb q (query s)) eqn:E; [|done].
  by apply String.eqb_eq in E.
Qed.

Lemma setQuery_timer q s v :
  timer (setQuery q s) = Some v → v = q ∨ timer s = Some v.
Proof.
  unfold setQuery. destruct (String.eqb q (query s)); cbn; [by right|].
  intros [= <-]. by left.
Qed.

Lemma length_lt_1 (v : string) : (String.length v <? 1)%nat = true ↔ v = "".
Proof. destruct v; cbn; split; done. Qed.

(** What one event can send: only the firing timer sends, and it sends
    its non-empty value. *)
Lemma searchEffect_state s :
  timer (searchEffect env s).1 = timer s
  ∧ query (searchEffect env s).1 = query s.
Proof.
  unfold searchEffect.
  by destruct (String.length (debouncedQuery s) <? 1)%nat.
Qed.

Lemma searchEffect_searched s r :
  r ∈ searched (searchEffect env s).2 →
  debouncedQuery s ≠ "" ∧ r = Api.searchStocks env (debouncedQuery s).
Proof.
  unfold searchEffect.
  destruct (String.length (debouncedQuery s) <? 1)%nat eqn:Hlen;
    [by intros ?%elem_of_nil|].
  intros ->%list_elem_of_singleton. split; [|done].
  intros Hq%length_lt_1. congruence.
Qed.

Lemma step_searched s e r :
  r ∈ searched (step s e).2 →
  ∃ v, e = Elapse ∧ timer s = Some v ∧ v ≠ ""
       ∧ r = Api.searchStocks env v.
Proof.
  destruct e; cbn -[searchEffect]; try by intros ?%elem_of_nil.
  destruct (timer s) as [v|]; [|by intros ?%elem_of_nil].
  destruct (String.eqb v (debouncedQuery s)); [by intros ?%elem_of_nil|].
  intros [Hne ->]%searchEffect_searched. by exists v.
Qed.

Lemma step_timer_typed seen s e :
  timer_typed seen s → timer_typed (seen ++ [e]) (step s e).1.
Proof.
  intros Hs. pose proof (timer_typed_mono seen [e] s Hs) as Hs'.
  destruct e; cbn -[searchEffect]; try done.
  - intros v [->|Hv]%setQuery_timer; [|by apply Hs'].
    right. exists typed. split; [|done]. apply elem_of_app. right. by left.
  - destruct (timer s) as [v|]; [|done].
    destruct (String.eqb v (debouncedQuery s)); [by intros ?|].
    intros ?. by rewrite (proj1 (searchEffect_state _)).
  - intros v [->|Hv]%setQuery_timer; [by left|by apply Hs'].
Qed.

Lemma run_searched evs : ∀ seen s,
  timer_typed seen s →
  ∀ r, r ∈ searched (run s evs).2 →
       ∃ v, v ≠ "" ∧ r = Api.searchStocks env v
            ∧ ∃ typed, Change typed ∈ (seen ++ evs)%list ∧ v = toUpperCase typed.
Proof.
  induction evs as [|e evs IH]; intros seen s Hs r; cbn.
  { by intros ?%elem_of_nil. }
  pose proof (step_timer_typed seen s e Hs) as Hs1.
  pose proof (step_searched s e r) as Hnow.
  destruct (step s e) as [s1 out1]; cbn in *.
  specialize (IH (seen ++ [e])%list s1 Hs1 r).
  destruct (run s1 evs) as [s2 out2]; cbn in *.
  unfold searched in *. rewrite omap_app, elem_of_app.
  rewrite <- (assoc_L (++)) in IH. intros [Hr|Hr]; [|by apply IH].
  destruct (Hnow Hr) as (v & -> & Hv & Hne & ->).
  exists v. repeat split; try done.
  destruct (Hs v Hv) as [->|(typed & Hin & ->)]; [done|].
  exists typed. split; [|done]. apply elem_of_app. by left.
Qed.

Lemma init_timer_typed : timer_typed [] init.
Proof. intros v [= <-]. by left. Qed.

(** C6: whatever is typed, the query the box stores is the typed text
    in upper case; after the debounce delay that value is the [q] of
    the search request; and every search request the box ever sends
    carries the upper-cased text of some change event. *)
Theorem typed_query_is_upper_cased (typed : string) (s : State) (evs : list Event) :
  query (step s (Change typed)).1 = toUpperCase typed
  ∧ searched (run init [Change typed; Elapse]).2
    = (if String.eqb (toUpperCase typed) "" then []
       else [Api.searchStocks env (toUpperCase typed)])
  ∧ Forall (λ r, ∃ typed', Change typed' ∈ evs
                  ∧ r = Api.searchStocks env (toUpperCase typed')
                  ∧ Api.params r !! "q" = Some (JStr (toUpperCase typed')))
      (searched (run init evs).2).
Proof.
  split; [apply setQuery_query|]. split.
  - cbn. unfold setQuery; cbn.
    by destruct (toUpperCase typed) as [|c u].
  - apply Forall_forall. intros r Hr.
    destruct (run_searched evs [] init init_timer_typed r Hr)
      as (v & _ & -> & typed' & Hin & ->).
    exists typed'. split; [done|]. split; [done|].
    apply lookup_singleton_eq.
Qed.

(** C10: the search effect, run on an empty debounced query, empties
    the result list and calls nothing; and, from any state and through
    any events, no search request is sent with a query shorter than
    one character. *)
Theorem no_search_for_empty_query
    (q : string) (rs : list StockSearchResult) (l o : bool) (t : option string)
    (s : State) (evs : list Event) :
  searchEffect env
    {| query := q; debouncedQuery := ""; results := rs;
       isLoading := l; isOpen := o; timer := t |}
  = ({| query := q; debouncedQuery := ""; results := [];
        isLoading := l; isOpen := o; timer := t |}, [])
  ∧ Forall (λ r, ∃ v, r = Api.searchStocks env v ∧ (1 ≤ String.length v)%nat)
      (searched (run s evs).2).
Proof.
  split; [done|].
  induction evs as [|e evs IH] in s |- *; cbn; [constructor|].
  pose proof (step_searched s e) as Hnow.
  destruct (step s e) as [s1 out1]; cbn in *.
  specialize (IH s1). destruct (run s1 evs) as [s2 out2]; cbn in *.
  unfold searched in *. rewrite omap_app. apply Forall_app. split; [|done].
  apply Forall_forall. intros r Hr.
  destruct (Hnow r Hr) as (v & _ & _ & Hne & ->).
  exists v. split; [done|]. destruct v; [done|cbn; lia].
Qed.
End StockSearchFacts.

(** The box at work: "vnm" is typed and the delay passes; then the
    result is chosen, which empties the query without a search. *)
Example typing_vnm_searches_VNM :
  StockSearch.searched
    (StockSearch.run StockSearch.upper_ascii None StockSearch.init
       [StockSearch.Change "vnm"; StockSearch.Elapse;
        StockSearch.Select "VNM"; StockSearch.Elapse]).2
  = [Api.searchStocks None "VNM"].
Proof. reflexivity. Qed.

(** ** The store: upserts keep one row per key *)

Section UpsertFacts.
Import Backend.
Implicit Types (r : PeriodRecord) (t rows : list PeriodRecord) (k : PeriodKey).

Lemma upsert_keys_in r t : key r ∈ keys t → keys (upsert r t) = keys t.
Proof.
  induction t as [|x t IH]; cbn; [by intros ?%elem_of_nil|].
  intros Hin. case_decide as Hx; cbn; [by rewrite Hx|].
  f_equal. apply IH. apply elem_of_cons in Hin as [Heq|Hin]; [congruence|done].
Qed.

Lemma upsert_keys_notin r t :
  key r ∉ keys t → keys (upsert r t) = (keys t ++ [key r])%list.
Proof.
  induction t as [|x t IH]; cbn; [done|].
  intros Hin. apply not_elem_of_cons in Hin as [Hne Hin].
  rewrite decide_False by congruence. cbn. f_equal. by apply IH.
Qed.

Lemma upsert_keys_mono r t k : k ∈ keys t → k ∈ keys (upsert r t).
Proof.
  destruct (decide (key r ∈ keys t)) as [Hin|Hin].
  - by rewrite upsert_keys_in.
  - rewrite upsert_keys_notin by done. intros ?. apply elem_of_app. by left.
Qed.

Lemma upsert_keys_new r t : key r ∈ keys (upsert r t).
Proof.
  destruct (decide (key r ∈ keys t)) as [Hin|Hin].
  - by rewrite upsert_keys_in.
  - rewrite upsert_keys_notin by done. apply elem_of_app. right. by left.
Qed.

Lemma upsert_NoDup r t : NoDup (keys t) → NoDup (keys (upsert r t)).
Proof.
  intros Hnd. destruct (decide (key r ∈ keys t)) as [Hin|Hin].
  - by rewrite upsert_keys_in.
  - rewrite upsert_keys_notin by done.
    apply NoDup_app. split; [done|]. split; [|apply NoDup_singleton].
    by intros k Hk ->%list_elem_of_singleton.
Qed.

Lemma lookup_upsert k r t :
  lookup_key k (upsert r t)
  = if decide (key r = k) then Some r else lookup_key k t.
Proof.
  unfold lookup_key. induction t as [|x t IH]; cbn.
  - case_bool_decide; case_decide; done.
  - destruct (decide (key x = key r)) as [Hx|Hx]; cbn.
    + repeat case_bool_decide; case_decide; congruence.
    + rewrite IH. repeat case_bool_decide; repeat case_decide; congruence.
Qed.

Lemma upsert_all_cons r rows t :
  upsert_all (r :: rows) t = upsert_all rows (upsert r t).
Proof. done. Qed.

Lemma upsert_all_NoDup rows : ∀ t,
  NoDup (keys t) → NoDup (keys (upsert_all rows t)).
Proof.
  induction rows as [|r rows IH]; intros t Hnd; [done|].
  rewrite upsert_all_cons. by apply IH, upsert_NoDup.
Qed.

Lemma upsert_all_keys_mono rows : ∀ t k,
  k ∈ keys t → k ∈ keys (upsert_all rows t).
Proof.
  induction rows as [|r rows IH]; intros t k Hk; [done|].
  rewrite upsert_all_cons. by apply IH, upsert_keys_mono.
Qed.

Lemma upsert_all_keys_cover rows : ∀ t r,
  r ∈ rows → key r ∈ keys (upsert_all rows t).
Proof.
  induction rows as [|x rows IH]; intros t r Hr; [by apply elem_of_nil in Hr|].
  rewrite upsert_all_cons. apply elem_of_cons in Hr as [->|Hr].
  - apply upsert_all_keys_mono, upsert_keys_new.
  - by apply IH.
Qed.

Lemma upsert_all_keys_in rows : ∀ t,
  (∀ r, r ∈ rows → key r ∈ keys t) → keys (upsert_all rows t) = keys t.
Proof.
  induction rows as [|x rows IH]; intros t Hin; [done|].
  rewrite upsert_all_cons, IH.
  - apply upsert_keys_in, Hin. by left.
  - intros r Hr. apply upsert_keys_mono, Hin. by right.
Qed.

Lemma lookup_upsert_all k rows : ∀ t,
  lookup_key k (upsert_all rows t) = after_batch k rows (lookup_key k t).
Proof.
  unfold after_batch.
  induction rows as [|r rows IH]; intros t; [done|].
  rewrite upsert_all_cons, IH, lookup_upsert. done.
Qed.

(** A batch either leaves a key alone or decides its row by itself. *)
Lemma after_batch_cases k rows :
  (∀ before, after_batch k rows before = before)
  ∨ (∃ r, ∀ before, after_batch k rows before = Some r).
Proof.
  unfold after_batch.
  induction rows as [|x rows IH]; cbn; [by left|].
  destruct IH as [IH|[r IH]].
  - destruct (decide (key x = k)).
    + right. exists x. intros b. by rewrite IH.
    + left. intros b. by rewrite IH.
  - right. exists r. intros b. by rewrite IH.
Qed.

Lemma after_batch_idem k rows before :
  after_batch k rows (after_batch k rows before) = after_batch k rows before.
Proof.
  destruct (after_batch_cases k rows) as [H|[r H]]; by rewrite !H.
Qed.

(** Tables with the same keys, one row per key and the same row under
    every key are the same table. *)
Lemma table_ext t1 : ∀ t2,
  NoDup (keys t1) → keys t1 = keys t2 →
  (∀ k, lookup_key k t1 = lookup_key k t2) → t1 = t2.
Proof.
  unfold lookup_key.
  induction t1 as [|x1 t1 IH]; intros [|x2 t2] Hnd Hk Hl; try done.
  cbn in Hk. injection Hk as Hx Hk.
  apply NoDup_cons in Hnd as [Hx1 Hnd].
  assert (x1 = x2) as <-.
  { specialize (Hl (key x1)). cbn in Hl.
    rewrite !bool_decide_true in Hl by done. congruence. }
  f_equal. apply IH; [done..|].
  intros k. specialize (Hl k). cbn in Hl.
  destruct (decide (key x1 = k)) as [<-|Hne].
  - assert (∀ t, key x1 ∉ keys t →
                 find (λ r, bool_decide (key r = key x1)) t = None) as Hnone.
    { clear. induction t as [|y t IHt]; cbn; [done|].
      intros [Hy Ht]%not_elem_of_cons.
      rewrite bool_decide_false by congruence. by apply IHt. }
    rewrite (Hnone t1) by done. rewrite (Hnone t2); [done|].
    unfold keys. by rewrite <- Hk.
  - by rewrite !bool_decide_false in Hl.
Qed.

Lemma upsert_all_idem rows t :
  NoDup (keys t) → upsert_all rows (upsert_all rows t) = upsert_all rows t.
Proof.
  intros Hnd. apply table_ext.
  - by apply upsert_all_NoDup, upsert_all_NoDup.
  - apply upsert_all_keys_in. intros r Hr. by apply upsert_all_keys_cover.
  - intros k. by rewrite !lookup_upsert_all, after_batch_idem.
Qed.
End UpsertFacts.

(** ** The fetch orchestrator *)

Section EnsureDataFacts.
Import Backend.
Variable normalize : string → string.
Variable expected : PeriodType → Z → list (Z * option Z).
Variable P : Provider.
Implicit Types (st : Store) (sym lang : string) (pt : PeriodType).

Lemma fetch_all_store sym pt yb lang st :
  (fetch_all P sym pt yb lang st).1
  = {| stocks := stocks st;
       balance_sheets :=
         fetched_table P sym pt yb lang BalanceSheetCat (balance_sheets st);
       income_statements :=
         fetched_table P sym pt yb lang IncomeStatementCat (income_statements st);
       cash_flows :=
         fetched_table P sym pt yb lang CashFlowCat (cash_flows st) |}.
Proof.
  unfold fetch_all, fetched_table, fetch_category. destruct st. cbn.
  destruct (statements P sym BalanceSheetCat pt yb lang),
           (statements P sym IncomeStatementCat pt yb lang),
           (statements P sym CashFlowCat pt yb lang); done.
Qed.

(** Whether the fetch succeeded depends on the provider alone. *)
Lemma fetch_all_ok sym pt yb lang st st' :
  (fetch_all P sym pt yb lang st).2 = (fetch_all P sym pt yb lang st').2.
Proof.
  unfold fetch_all, fetch_category. cbn.
  destruct (statements P sym BalanceSheetCat pt yb lang),
           (statements P sym IncomeStatementCat pt yb lang),
           (statements P sym CashFlowCat pt yb lang); done.
Qed.

Lemma fetched_table_NoDup sym pt yb lang c t :
  NoDup (keys t) → NoDup (keys (fetched_table P sym pt yb lang c t)).
Proof.
  unfold fetched_table. destruct (statements P sym c pt yb lang); [|done].
  apply upsert_all_NoDup.
Qed.

Lemma fetched_table_idem sym pt yb lang c t :
  NoDup (keys t) →
  fetched_table P sym pt yb lang c (fetched_table P sym pt yb lang c t)
  = fetched_table P sym pt yb lang c t.
Proof.
  unfold fetched_table. destruct (statements P sym c pt yb lang); [|done].
  apply upsert_all_idem.
Qed.

Lemma fetch_all_unique sym pt yb lang st :
  unique_rows st → unique_rows (fetch_all P sym pt yb lang st).1.
Proof.
  intros (Hs & Hb & Hi & Hc). rewrite fetch_all_store.
  repeat split; cbn; [done|by apply fetched_table_NoDup..].
Qed.

Lemma fetch_all_idem sym pt yb lang st :
  unique_rows st →
  (fetch_all P sym pt yb lang (fetch_all P sym pt yb lang st).1).1
  = (fetch_all P sym pt yb lang st).1.
Proof.
  intros (Hs & Hb & Hi & Hc). rewrite !fetch_all_store. cbn.
  by rewrite !fetched_table_idem.
Qed.

Lemma known_spec sym st : known sym st = true ↔ sym ∈ map symbol (stocks st).
Proof.
  unfold known. rewrite existsb_exists, list_elem_of_fmap.
  setoid_rewrite String.eqb_eq. setoid_rewrite <- list_elem_of_In. naive_solver.
Qed.

Lemma resolve_known sym st : known sym (resolve_stock P sym st).1 = true.
Proof.
  unfold resolve_stock. destruct (known sym st) eqn:Hk; [done|].
  apply known_spec. cbn. rewrite map_app. apply elem_of_app. right. by left.
Qed.

Lemma resolve_when_known sym st :
  known sym st = true → resolve_stock P sym st = (st, []).
Proof. unfold resolve_stock. by intros ->. Qed.

Lemma resolve_unique sym st :
  unique_rows st → unique_rows (resolve_stock P sym st).1.
Proof.
  intros (Hs & Hb & Hi & Hc). unfold resolve_stock.
  destruct (known sym st) eqn:Hk; [done|].
  repeat split; cbn; [|done..].
  rewrite map_app. apply NoDup_app. split; [done|].
  split; [|apply NoDup_singleton].
  intros s Hin ->%list_elem_of_singleton. cbn in Hin.
  apply known_spec in Hin. congruence.
Qed.

Lemma fetch_all_known sym sym' pt yb lang st :
  known sym' (fetch_all P sym pt yb lang st).1 = known sym' st.
Proof. by rewrite fetch_all_store. Qed.

Lemma ensureData_unique symbol pt yb lang st :
  unique_rows st →
  unique_rows (store (ensureData normalize expected P symbol pt yb lang st)).
Proof.
  intros Hu. unfold ensureData.
  destruct (String.eqb (normalize symbol) "" || (yb <=? 0)); [done|].
  pose proof (resolve_unique (normalize symbol) st Hu) as Hu1.
  destruct (resolve_stock P (normalize symbol) st) as [st1 looked].
  destruct (missing expected (normalize symbol) pt yb st1); [done|].
  pose proof (fetch_all_unique (normalize symbol) pt yb lang st1 Hu1) as Hu2.
  by destruct (fetch_all P (normalize symbol) pt yb lang st1).
Qed.

(** The second of two calls in a row: same store, and either nothing
    asked of the provider or the three category fetches again. *)
Lemma ensureData_again symbol pt yb lang st :
  unique_rows st →
  let o1 := ensureData normalize expected P symbol pt yb lang st in
  let o2 := ensureData normalize expected P symbol pt yb lang (store o1) in
  store o2 = store o1
  ∧ (reply o2 = ValidationError ∧ calls o2 = []
     ∨ missing expected (normalize symbol) pt yb (store o1) = []
       ∧ reply o2 = Status cached ∧ calls o2 = []
     ∨ missing expected (normalize symbol) pt yb (store o1) ≠ []
       ∧ reply o2 = reply o1
       ∧ calls o2 = map (FetchStatements (normalize symbol)) categories).
Proof.
  intros Hu. cbn zeta. unfold ensureData.
  set (sym := normalize symbol).
  destruct (String.eqb sym "" || (yb <=? 0)) eqn:Hval; cbn [store reply calls].
  { split; [done|]. by left. }
  pose proof (resolve_known sym st) as Hk.
  pose proof (resolve_unique sym st Hu) as Hu1.
  destruct (resolve_stock P sym st) as [st1 looked]. cbn [fst] in Hk, Hu1.
  destruct (missing expected sym pt yb st1) as [|p ps] eqn:Hmiss;
    cbn [store reply calls].
  { rewrite (resolve_when_known sym st1 Hk), Hmiss. cbn [store reply calls].
    split; [done|]. right. by left. }
  pose proof (fetch_all_idem sym pt yb lang st1 Hu1) as Hidem.
  pose proof (fetch_all_known sym sym pt yb lang st1) as Hk2.
  pose proof (fetch_all_ok sym pt yb lang (fetch_all P sym pt yb lang st1).1 st1) as Hok.
  destruct (fetch_all P sym pt yb lang st1) as [st2 ok].
  cbn [fst snd store reply calls] in *.
  rewrite Hk in Hk2.
  rewrite (resolve_when_known sym st2 Hk2).
  destruct (missing expected sym pt yb st2) as [|p' ps'] eqn:Hmiss2;
    cbn [store reply calls].
  { split; [done|]. right. by left. }
  destruct (fetch_all P sym pt yb lang st2) as [st3 ok'].
  cbn [fst snd store reply calls app] in *. subst.
  split; [done|]. right. right. done.
Qed.
End EnsureDataFacts.

(** C1: two calls of [ensureData] in a row, for any symbol and against
    the same provider data, leave the same number of rows in every table
    after the second call as after the first, the same rows in the three
    period tables and no two rows under one key; the second call either
    finds nothing missing and asks the provider nothing, or fetches the
    three categories again and overwrites. *)
Theorem ensureData_twice_same_rows
    (normalize : string → string) (expected : PeriodType → Z → list (Z * option Z))
    (P : Backend.Provider) (symbol : string) (periodType : PeriodType)
    (yearsBack : Z) (lang : string) (st : Backend.Store) :
  Backend.unique_rows st →
  let o1 := Backend.ensureData normalize expected P symbol periodType yearsBack lang st in
  let o2 := Backend.ensureData normalize expected P symbol periodType yearsBack lang
              (Backend.store o1) in
  Backend.row_counts (Backend.store o2) = Backend.row_counts (Backend.store o1)
  ∧ (∀ c, Backend.table_of c (Backend.store o2) = Backend.table_of c (Backend.store o1))
  ∧ Backend.unique_rows (Backend.store o2)
  ∧ (Backend.reply o2 = Backend.ValidationError ∧ Backend.calls o2 = []
     ∨ Backend.missing expected (normalize symbol) periodType yearsBack (Backend.store o1) = []
       ∧ Backend.reply o2 = Backend.Status Backend.cached ∧ Backend.calls o2 = []
     ∨ Backend.missing expected (normalize symbol) periodType yearsBack (Backend.store o1) ≠ []
       ∧ Backend.reply o2 = Backend.reply o1
       ∧ Backend.calls o2
         = map (Backend.FetchStatements (normalize symbol)) Backend.categories).
Proof.
  intros Hu o1 o2.
  destruct (ensureData_again normalize expected P symbol periodType yearsBack lang st Hu)
    as [Hst Hcalls].
  fold o1 in Hst, Hcalls. fold o2 in Hst, Hcalls.
  split; [by rewrite Hst|]. split; [by rewrite Hst|]. split; [|done].
  rewrite Hst. by apply ensureData_unique.
Qed.

Lemma vnm_store_unique : Backend.unique_rows Backend.vnm_store.
Proof.
  unfold Backend.unique_rows. cbn.
  repeat split; repeat constructor; by intros ?%elem_of_nil.
Defined.

Lemma ensureData_twice_same_rows_witness :
  Backend.unique_rows Backend.vnm_store
  ∧ let o1 := Backend.ensureData StockSearch.upper_ascii Backend.vnm_expected
                Backend.vnm_provider "vnm" Annual 5 "vi" Backend.vnm_store in
    let o2 := Backend.ensureData StockSearch.upper_ascii Backend.vnm_expected
                Backend.vnm_provider "vnm" Annual 5 "vi" (Backend.store o1) in
    Backend.row_counts (Backend.store o2) = Backend.row_counts (Backend.store o1).
Proof.
  split; [exact vnm_store_unique|].
  exact (proj1 (ensureData_twice_same_rows StockSearch.upper_ascii
                  Backend.vnm_expected Backend.vnm_provider "vnm" Annual 5 "vi"
                  Backend.vnm_store vnm_store_unique)).
Defined.

(** The two calls on the example: the failed cash-flow category makes
    both calls report an error, the 2022 income statement is
    overwritten, and the counts stay 1, 2, 2 and 0. *)
Example ensureData_vnm_twice :
  let o1 := Backend.ensureData StockSearch.upper_ascii Backend.vnm_expected
              Backend.vnm_provider "vnm" Annual 5 "vi" Backend.vnm_store in
  let o2 := Backend.ensureData StockSearch.upper_ascii Backend.vnm_expected
              Backend.vnm_provider "vnm" Annual 5 "vi" (Backend.store o1) in
  Backend.reply o1 = Backend.Status Backend.error
  ∧ Backend.reply o2 = Backend.Status Backend.error
  ∧ Backend.row_counts (Backend.store o1) = (1, 2, 2, 0)%nat
  ∧ Backend.row_counts (Backend.store o2) = (1, 2, 2, 0)%nat
  ∧ map Backend.label (Backend.income_statements (Backend.store o2)) = ["2022"; "2023"].
Proof. vm_compute. repeat split. Qed.

(** ** The reports read *)

Section ReadFacts.
Import Backend.

Lemma period_geb_true a b : period_geb a b = true → period_ge a b.
Proof.
  unfold period_geb, period_ge, quarter_geb.
  destruct (k_quarter (key a)), (k_quarter (key b)); intros H;
    apply orb_true_iff in H as [H|[H1 H2]%andb_true_iff]; try lia.
  all: try discriminate; right; split; try lia; done.
Qed.

Lemma period_geb_false a b : period_geb a b = false → period_ge b a.
Proof.
  unfold period_geb, period_ge, quarter_geb.
  intros [H1 H2]%orb_false_iff. apply Z.ltb_ge in H1.
  destruct (Z.eqb_spec (k_year (key a)) (k_year (key b))) as [Heq|Hne];
    [|left; lia].
  cbn in H2.
  destruct (k_quarter (key a)), (k_quarter (key b)); try discriminate;
    right; (split; [lia|]); [lia|done].
Qed.

Lemma period_ge_trans a b c : period_ge a b → period_ge b c → period_ge a c.
Proof.
  unfold period_ge.
  destruct (k_quarter (key a)), (k_quarter (key b)), (k_quarter (key c));
    intros [?|[? ?]] [?|[? ?]]; try done; try (left; lia); right; split; lia || done.
Qed.

Lemma readPeriods_sorted sym pt year t :
  StronglySorted period_ge (readPeriods sym pt year t).
Proof.
  apply Sorted_StronglySorted; [intros a b c; apply period_ge_trans|].
  apply sort_by_sorted; [apply period_geb_true|apply period_geb_false].
Qed.

Lemma readPeriods_elem sym pt year t r :
  r ∈ readPeriods sym pt year t ↔ r ∈ t ∧ selected sym pt year r = true.
Proof.
  unfold readPeriods. rewrite sort_by_perm.
  rewrite !list_elem_of_In, filter_In. done.
Qed.
End ReadFacts.

(** C7: what a reports read returns is ordered by year descending,
    then quarter descending, the rows without a quarter forming one
    bucket, and holds exactly the matching rows of the table; the year
    list the UI derives from returned rows, [updateAvailableYears], is
    strictly descending and holds exactly the years of those rows. *)
Theorem report_rows_and_years_descending
    (normalize : string → string) (expected : PeriodType → Z → list (Z * option Z))
    (yearsBack : Z) (P : Backend.Provider) (symbol lang : string)
    (periodType : PeriodType) (year_ : option Z) (autoFetch : bool)
    (st : Backend.Store) (t : list Backend.PeriodRecord)
    (bs : list BalanceSheet) (is_ : list IncomeStatement)
    (cf : list CashFlowStatement) :
  let reports :=
    (Backend.getReports normalize expected yearsBack P symbol periodType year_
       autoFetch lang st).1 in
  (StronglySorted Backend.period_ge (Backend.balanceSheets reports)
   ∧ StronglySorted Backend.period_ge (Backend.incomeStatements reports)
   ∧ StronglySorted Backend.period_ge (Backend.cashFlowStatements reports))
  ∧ (StronglySorted Backend.period_ge (Backend.readPeriods symbol periodType year_ t)
     ∧ ∀ r, r ∈ Backend.readPeriods symbol periodType year_ t
            ↔ r ∈ t ∧ Backend.selected symbol periodType year_ r = true)
  ∧ (StronglySorted (λ a b, b < a) (App.updateAvailableYears bs is_ cf)
     ∧ ∀ y, y ∈ App.updateAvailableYears bs is_ cf
            ↔ ∃ item, item ∈ (bs ++ is_ ++ cf)%list ∧ year item = y).
Proof.
  intros reports. split; [|split].
  - subst reports. unfold Backend.getReports.
    destruct autoFetch; [|destruct (Backend.known _ _)]; cbn;
      repeat split; try apply readPeriods_sorted; constructor.
  - split; [apply readPeriods_sorted|]. intros r. apply readPeriods_elem.
  - apply updateAvailableYears_descending.
Qed.

(** Rows as a read returns them, and the year buttons made of them. *)
Example read_orders_quarters :
  map (λ r, (Backend.k_year (Backend.key r), Backend.k_quarter (Backend.key r)))
    (Backend.readPeriods "VNM" Quarter None
       (map (Backend.to_record "VNM" Quarter)
          [ {| Backend.p_year := 2022; Backend.p_quarter := Some 4;
               Backend.p_label := "Q4/2022"; Backend.p_items := ∅ |};
            {| Backend.p_year := 2023; Backend.p_quarter := Some 1;
               Backend.p_label := "Q1/2023"; Backend.p_items := ∅ |};
            {| Backend.p_year := 2023; Backend.p_quarter := Some 2;
               Backend.p_label := "Q2/2023"; Backend.p_items := ∅ |} ]))
  = [(2023, Some 2); (2023, Some 1); (2022, Some 4)].
Proof. reflexivity. Qed.

(** * Further properties of the front end *)

(** ** services/api.ts: queries and paths *)

Section ApiQueryFacts.
Import Api.
Variable env : option string.

Lemma set_if_truthy_same k x (m : gmap string JsValue) :
  set_if_truthy k x m !! k
  = match x with
    | Some v => if truthy v then Some v else m !! k
    | None => m !! k
    end.
Proof.
  unfold set_if_truthy. destruct x as [v|]; [|done].
  destruct (truthy v); [|done]. apply lookup_insert_eq.
Qed.

Lemma category_params_lookup year periodType k :
  category_params year periodType !! k
  = if decide (k = "period_type") then JStr ∘ PeriodType_str <$> periodType
    else if decide (k = "year") then sent_year year
    else None.
Proof.
  unfold category_params. cbn zeta.
  destruct (decide (k = "period_type")) as [->|Hp].
  - rewrite set_if_truthy_same. destruct periodType as [[]|]; cbn; try done.
    all: by rewrite set_if_truthy_other, lookup_empty.
  - rewrite set_if_truthy_other by done.
    destruct (decide (k = "year")) as [->|Hy].
    + rewrite set_if_truthy_same, lookup_empty.
      destruct year as [y|]; cbn; [|done]. by destruct (y =? 0).
    + by rewrite set_if_truthy_other, lookup_empty.
Qed.

(** X1: the query of each single-category read holds the year exactly
    when one is given and is not 0, the period type exactly when one is
    given, and no other key; the query of [getAllReports] holds the
    period type (annual when left out), the language (vi when left out),
    auto_fetch and the year under the same rule, and no other key. *)
Theorem read_queries_exact
    (symbol : string) (year : option Z) (periodType : option PeriodType)
    (lang : option string) (k : string) :
  (∀ r, r ∈ [getBalanceSheets env symbol year periodType;
             getIncomeStatements env symbol year periodType;
             getCashFlowStatements env symbol year periodType] →
        params r !! k
        = if decide (k = "period_type") then JStr ∘ PeriodType_str <$> periodType
          else if decide (k = "year") then sent_year year
          else None)
  ∧ params (getAllReports env symbol year periodType lang) !! k
    = if decide (k = "year") then sent_year year
      else if decide (k = "auto_fetch") then Some (JBool true)
      else if decide (k = "lang") then Some (JStr (default "vi" lang))
      else if decide (k = "period_type")
           then Some (JStr (PeriodType_str (default Annual periodType)))
      else None.
Proof.
  split.
  - intros r Hr.
    assert (params r = category_params year periodType) as ->.
    { repeat (apply elem_of_cons in Hr as [->|Hr]; [reflexivity|]).
      by apply elem_of_nil in Hr. }
    apply category_params_lookup.
  - cbn. destruct (decide (k = "year")) as [->|Hy].
    + rewrite set_if_truthy_same.
      rewrite !lookup_insert_ne, lookup_singleton_ne by done.
      destruct year as [y|]; cbn; [|done]. by destruct (y =? 0).
    + rewrite set_if_truthy_other by done.
      repeat case_decide; subst; simplify_map_eq; done.
Qed.
End ApiQueryFacts.

Section ApiPathFacts.
Import Api.
Variable env : option string.

Lemma string_app_cancel_l (p a b : string) : p ++ a = p ++ b → a = b.
Proof. induction p as [|c p IH]; simpl; [done|]. intros [= H]. by apply IH. Qed.

Lemma list_ascii_of_string_app (a b : string) :
  list_ascii_of_string (a ++ b)
  = (list_ascii_of_string a ++ list_ascii_of_string b)%list.
Proof. induction a as [|c a IH]; simpl; [done|]. by rewrite IH. Qed.

Lemma string_app_cancel_r (q a b : string) : a ++ q = b ++ q → a = b.
Proof.
  intros H. apply (f_equal list_ascii_of_string) in H.
  rewrite !list_ascii_of_string_app in H. apply app_inv_tail in H.
  apply (f_equal string_of_list_ascii) in H.
  by rewrite !string_of_list_ascii_of_string in H.
Qed.

Lemma path_inj (q a b : string) :
  "/stocks/" ++ a ++ q = "/stocks/" ++ b ++ q ↔ a = b.
Proof.
  split; [|by intros ->].
  intros H%string_app_cancel_l. by apply string_app_cancel_r in H.
Qed.

(** X2: within each per-stock operation the path names the stock: two
    calls have the same path exactly when they are for the same symbol
    text. The symbol is put into the path as it is, so a symbol that
    ends in "/status" turns [getStock] into the request of
    [getFetchStatus]. *)
Theorem paths_name_the_stock
    (s1 s2 : string) (request : option FetchDataRequest) (lang : option string)
    (year : option Z) (periodType : option PeriodType) :
  (url (getStock env s1) = url (getStock env s2) ↔ s1 = s2)
  ∧ (url (fetchStockData env s1 request lang)
     = url (fetchStockData env s2 request lang) ↔ s1 = s2)
  ∧ (url (getBalanceSheets env s1 year periodType)
     = url (getBalanceSheets env s2 year periodType) ↔ s1 = s2)
  ∧ (url (getIncomeStatements env s1 year periodType)
     = url (getIncomeStatements env s2 year periodType) ↔ s1 = s2)
  ∧ (url (getCashFlowStatements env s1 year periodType)
     = url (getCashFlowStatements env s2 year periodType) ↔ s1 = s2)
  ∧ (url (getAllReports env s1 year periodType lang)
     = url (getAllReports env s2 year periodType lang) ↔ s1 = s2)
  ∧ (url (getFetchStatus env s1) = url (getFetchStatus env s2) ↔ s1 = s2)
  ∧ (url (deleteStock env s1) = url (deleteStock env s2) ↔ s1 = s2)
  ∧ getStock env (s1 ++ "/status") = getFetchStatus env s1.
Proof.
  assert (∀ a b, "/stocks/" ++ a = "/stocks/" ++ b ↔ a = b) as Hplain.
  { intros a b. split; [apply string_app_cancel_l|by intros ->]. }
  repeat split; try apply (path_inj _ s1 s2); try apply Hplain; by intros ->.
Qed.
End ApiPathFacts.

(** ** App.tsx: toggling years *)

Section YearFacts.
Import App.

Lemma desc_NoDup (l : list Z) : StronglySorted (λ a b, b < a) l → NoDup l.
Proof.
  induction 1 as [|x l Hs IH Hall]; [constructor|].
  apply NoDup_cons. split; [|done].
  intros Hin. rewrite Forall_forall in Hall. apply Hall in Hin. lia.
Qed.

Lemma StronglySorted_list_filter {A} (R : A → A → Prop) (f : A → bool) l :
  StronglySorted R l → StronglySorted R (List.filter f l).
Proof.
  induction 1 as [|x l Hs IH Hall]; cbn; [constructor|].
  destruct (f x); [|done]. constructor; [done|].
  rewrite Forall_forall in Hall |- *.
  intros y Hy. apply list_elem_of_In, filter_In in Hy as [Hy _].
  by apply Hall, list_elem_of_In.
Qed.

(** Strictly descending lists with the same members are the same list. *)
Lemma desc_ext (l1 : list Z) : ∀ l2,
  StronglySorted (λ a b, b < a) l1 → StronglySorted (λ a b, b < a) l2 →
  (∀ y, y ∈ l1 ↔ y ∈ l2) → l1 = l2.
Proof.
  induction l1 as [|x l1 IH]; intros l2 H1 H2 Hel.
  - destruct l2 as [|y l2]; [done|].
    exfalso. eapply not_elem_of_nil, Hel. by left.
  - destruct l2 as [|y l2].
    { exfalso. eapply not_elem_of_nil, Hel. by left. }
    apply StronglySorted_inv in H1 as [H1 Hx], H2 as [H2 Hy].
    rewrite Forall_forall in Hx, Hy.
    assert (x = y) as <-.
    { pose proof (proj1 (Hel x) ltac:(by left)) as Hxin.
      pose proof (proj2 (Hel y) ltac:(by left)) as Hyin.
      apply elem_of_cons in Hxin as [?|Hxin]; [done|].
      apply elem_of_cons in Hyin as [?|Hyin]; [done|].
      apply Hy in Hxin. apply Hx in Hyin. lia. }
    f_equal. apply IH; [done..|].
    intros z. specialize (Hel z). rewrite !elem_of_cons in Hel.
    split; intros Hz.
    + destruct (proj1 Hel (or_intror Hz)) as [->|?]; [|done].
      apply Hx in Hz. lia.
    + destruct (proj2 Hel (or_intror Hz)) as [->|?]; [|done].
      apply Hy in Hz. lia.
Qed.

Lemma js_sort_desc_strict (l : list Z) :
  NoDup l → StronglySorted (λ a b, b < a) (js_sort (λ a b, b - a) l).
Proof.
  intros Hnd.
  eapply StronglySorted_weaken;
    [|apply StronglySorted_strict; [apply js_sort_desc_sorted|]].
  - cbn. intros x y [? ?]. lia.
  - by rewrite js_sort_perm.
Qed.

Lemma toggleYear_elem year prev y :
  y ∈ toggleYear year prev
  ↔ (y ∈ prev ∧ y ≠ year) ∨ (y = year ∧ year ∉ prev).
Proof.
  unfold toggleYear. destruct (includes prev year) eqn:Hin.
  - apply includes_spec in Hin.
    rewrite list_elem_of_In, filter_In, <- list_elem_of_In.
    rewrite negb_true_iff, Z.eqb_neq. split; [tauto|].
    intros [?|[-> ?]]; tauto.
  - rewrite js_sort_perm, elem_of_app, list_elem_of_singleton.
    assert (year ∉ prev) as Hnot by (intros ?%includes_spec; congruence).
    split.
    + intros [Hy| ->]; [|tauto]. left. split; [done|]. by intros ->.
    + intros [[? ?]|[? ?]]; tauto.
Qed.

Lemma toggleYear_desc year prev :
  StronglySorted (λ a b, b < a) prev →
  StronglySorted (λ a b, b < a) (toggleYear year prev).
Proof.
  intros Hs. unfold toggleYear. destruct (includes prev year) eqn:Hin.
  - by apply StronglySorted_list_filter.
  - apply js_sort_desc_strict, NoDup_app.
    split; [by apply desc_NoDup|]. split; [|apply NoDup_singleton].
    intros y Hy ->%list_elem_of_singleton.
    apply includes_spec in Hy. congruence.
Qed.

(** X3: toggling a year flips that year's membership in the selection
    and leaves every other year's membership as it was. *)
Theorem toggleYear_flips_membership (year y : Z) (prev : list Z) :
  (year ∈ toggleYear year prev ↔ year ∉ prev)
  ∧ (y ≠ year → (y ∈ toggleYear year prev ↔ y ∈ prev)).
Proof.
  split.
  - rewrite toggleYear_elem. tauto.
  - intros Hne. rewrite toggleYear_elem. tauto.
Qed.

(** X4: on a selection kept in strictly descending order, toggling the
    same year twice gives back the selection; the order is kept by every
    toggle. *)
Theorem toggleYear_twice (year : Z) (prev : list Z) :
  StronglySorted (λ a b, b < a) prev →
  toggleYear year (toggleYear year prev) = prev
  ∧ StronglySorted (λ a b, b < a) (toggleYear year prev).
Proof.
  intros Hs. split; [|by apply toggleYear_desc].
  apply desc_ext; [by do 2 apply toggleYear_desc|done|].
  intros y. rewrite !toggleYear_elem.
  destruct (decide (y = year)) as [->|Hne]; [|tauto].
  destruct (decide (year ∈ prev)); tauto.
Qed.

Lemma toggleYear_twice_witness :
  StronglySorted (λ a b, b < a) [2023; 2021]
  ∧ toggleYear 2022 (toggleYear 2022 [2023; 2021]) = [2023; 2021].
Proof.
  assert (StronglySorted (λ a b, b < a) [2023; 2021]) as H
    by (repeat constructor; lia).
  split; [exact H|]. exact (proj1 (toggleYear_twice 2022 [2023; 2021] H)).
Defined.

Lemma list_filter_all {A} (f : A → bool) (l : list A) :
  (∀ x, x ∈ l → f x = true) → List.filter f l = l.
Proof.
  induction l as [|x l IH]; intros H; cbn; [done|].
  rewrite (H x) by by left. f_equal. apply IH. intros y Hy. apply H. by right.
Qed.

Lemma filtered_by (sel : list Z) (rows : list Statement) :
  (∀ r, r ∈ rows → year r ∈ sel) → filteredBalanceSheets sel rows = rows.
Proof.
  intros H. unfold filteredBalanceSheets.
  destruct (length sel =? 0)%nat; [done|].
  apply list_filter_all. intros r Hr. by apply includes_spec, H.
Qed.

(** X5: selecting every available year shows what selecting none
    shows: filtered by the whole list of available years, each of the
    three arrays is itself. *)
Theorem all_years_selected_filters_nothing
    (bs : list BalanceSheet) (is_ : list IncomeStatement)
    (cf : list CashFlowStatement) :
  let all := updateAvailableYears bs is_ cf in
  filteredBalanceSheets all bs = bs
  ∧ filteredIncomeStatements all is_ = is_
  ∧ filteredCashFlowStatements all cf = cf.
Proof.
  intros all.
  pose proof (proj2 (updateAvailableYears_descending bs is_ cf)) as Hel.
  repeat split; apply filtered_by; intros r Hr; apply Hel; exists r;
    (split; [|done]); rewrite !elem_of_app; auto.
Qed.

(** X6: the year buttons depend only on which years occur in the
    rows, not on the order, the repetition or the array they come in. *)
Theorem available_years_of_year_set
    (bs bs' : list BalanceSheet) (is_ is_' : list IncomeStatement)
    (cf cf' : list CashFlowStatement) :
  (∀ y, y ∈ map year (bs ++ is_ ++ cf)%list ↔ y ∈ map year (bs' ++ is_' ++ cf')%list) →
  updateAvailableYears bs is_ cf = updateAvailableYears bs' is_' cf'.
Proof.
  intros H.
  destruct (updateAvailableYears_descending bs is_ cf) as [Hs Hel].
  destruct (updateAvailableYears_descending bs' is_' cf') as [Hs' Hel'].
  apply desc_ext; [done..|].
  intros y. rewrite Hel, Hel'. specialize (H y).
  rewrite !list_elem_of_fmap in H. naive_solver.
Qed.

Lemma available_years_of_year_set_witness :
  updateAvailableYears
    [sample_statement 1 2022 "total_assets" None;
     sample_statement 2 2023 "total_assets" None] [] []
  = updateAvailableYears []
      [sample_statement 3 2023 "revenue" None]
      [sample_statement 4 2022 "ending_cash" None;
       sample_statement 5 2023 "ending_cash" None].
Proof.
  apply available_years_of_year_set. intros y. cbn.
  rewrite !elem_of_cons, !elem_of_nil. tauto.
Defined.

(** X7: the years that occur in the filtered arrays are the available
    years that are selected, or all available years when none is
    selected. *)
Theorem years_of_filtered_rows
    (sel : list Z) (bs : list BalanceSheet) (is_ : list IncomeStatement)
    (cf : list CashFlowStatement) (y : Z) :
  y ∈ updateAvailableYears (filteredBalanceSheets sel bs)
        (filteredIncomeStatements sel is_) (filteredCashFlowStatements sel cf)
  ↔ y ∈ updateAvailableYears bs is_ cf ∧ (sel = [] ∨ y ∈ sel).
Proof.
  rewrite (proj2 (updateAvailableYears_descending _ _ _)).
  rewrite (proj2 (updateAvailableYears_descending bs is_ cf)).
  unfold filteredBalanceSheets, filteredIncomeStatements, filteredCashFlowStatements.
  destruct sel as [|s sel]; cbn [length Nat.eqb].
  { naive_solver. }
  rewrite !filter_includes.
  setoid_rewrite elem_of_app. setoid_rewrite elem_of_app.
  setoid_rewrite list_elem_of_filter. naive_solver.
Qed.
End YearFacts.

(** ** App.tsx: the page as a whole *)

Section PageFacts.
Import App.
Variable t : string → string.
Variable env : option string.

Local Abbreviation step := (step t env).
Local Abbreviation run := (run t env).

(** A property every event keeps holds after any sequence of events. *)
Lemma run_keeps (Inv : State → Prop) :
  (∀ s e, Inv s → Inv (step s e).1) →
  ∀ evs s, Inv s → Inv (run s evs).1.
Proof.
  intros Hstep. induction evs as [|e evs IH]; intros s Hs; [done|].
  cbn. specialize (Hstep s e Hs).
  destruct (step s e) as [s1 out1]. specialize (IH s1 Hstep).
  by destruct (run s1 evs).
Qed.


Lemma step_years_match s e : years_match s → years_match (step s e).1.
Proof.
  unfold years_match. intros H.
  destruct e; cbn -[updateAvailableYears]; try done.
  - by destruct (hasSymbol s).
  - destruct (decide _); [done|]. by destruct (hasSymbol s).
Qed.

Lemma step_selection_desc s e :
  StronglySorted (λ a b, b < a) (selectedYears s) →
  StronglySorted (λ a b, b < a) (selectedYears (step s e).1).
Proof.
  intros H. destruct e; cbn -[toggleYear]; try done.
  - by destruct (hasSymbol s).
  - destruct (decide _); [done|]. by destruct (hasSymbol s).
  - by apply toggleYear_desc.
  - constructor.
Qed.

(** X8: in every state the page reaches, the year buttons are the years
    of the rows it holds, each once, in strictly descending order:
    every load that stores rows recomputes them, and a failed load
    stores neither. *)
Theorem year_buttons_match_loaded_rows (lang : string) (evs : list Event) :
  let s := (run (init lang) evs).1 in
  availableYears s
  = updateAvailableYears (balanceSheets s) (incomeStatements s)
      (cashFlowStatements s)
  ∧ StronglySorted (λ a b, b < a) (availableYears s)
  ∧ ∀ y, y ∈ availableYears s
         ↔ ∃ item, item ∈ (balanceSheets s ++ incomeStatements s
                            ++ cashFlowStatements s)%list ∧ year item = y.
Proof.
  intros s.
  assert (years_match s) as H.
  { apply (run_keeps years_match step_years_match). reflexivity. }
  unfold years_match in H. rewrite H.
  split; [done|]. apply updateAvailableYears_descending.
Qed.

(** X9: in every state the page reaches, the selected years are in
    strictly descending order without repetition, whatever years are
    toggled and however often. *)
Theorem selected_years_stay_descending (lang : string) (evs : list Event) :
  StronglySorted (λ a b, b < a) (selectedYears (run (init lang) evs).1)
  ∧ NoDup (selectedYears (run (init lang) evs).1).
Proof.
  assert (StronglySorted (λ a b, b < a) (selectedYears (run (init lang) evs).1)) as H.
  { apply (run_keeps (λ s, StronglySorted (λ a b, b < a) (selectedYears s))
             step_selection_desc). constructor. }
  split; [done|]. by apply desc_NoDup.
Qed.



End PageFacts.

Section PageEdgeFacts.
Import App.
Variable t : string → string.
Variable env : option string.

Local Abbreviation step := (step t env).
Local Abbreviation run := (run t env).
Local Abbreviation table := (table t).




(** X12: a request that fails changes none of the rows, year buttons or
    stock on the screen and ends the loading state. In particular a
    selection whose read fails leaves the new symbol selected over the
    rows loaded before, which the table goes on showing, with the
    status error and the time-out text exactly for an axios error with
    code ECONNABORTED. *)
Theorem failed_request_keeps_rows
    (s : State) (err : JsError) (c : ascii) (rest : string) :
  (∀ e, e ∈ [SelectRejected err; RefreshRejected err; LoadRejected] →
        shown (step s e).1 = shown s ∧ isLoading (step s e).1 = false)
  ∧ let s' := (run s [HandleStockSelect (String c rest); SelectRejected err]).1 in
    selectedSymbol s' = Some (String c rest)
    ∧ shown s' = shown s
    ∧ fetchStatus s' = "error"
    ∧ error s'
      = Some (if isAxiosError err && bool_decide (code err = Some "ECONNABORTED")
              then t "common.timeoutError" else t "common.fetchError")
    ∧ table s'
      = Some (FinancialTable.FinancialTable t (language s) (activeTab s)
                (Some (filteredBalanceSheets (selectedYears s) (balanceSheets s)))
                (Some (filteredIncomeStatements (selectedYears s) (incomeStatements s)))
                (Some (filteredCashFlowStatements (selectedYears s)
                         (cashFlowStatements s)))).
Proof.
  split.
  - intros e He.
    repeat (apply elem_of_cons in He as [->|He]; [done|]).
    by apply elem_of_nil in He.
  - cbn -[Api.getAllReports]. repeat split.
Qed.
End PageEdgeFacts.


Section PageTableFacts.
Import App.
Variable t : string → string.

Lemma list_filter_nil_iff {A} (f : A → bool) (l : list A) :
  List.filter f l = [] ↔ ∀ x, x ∈ l → f x = false.
Proof.
  induction l as [|x l IH]; cbn.
  - split; [|done]. by intros _ ? ?%elem_of_nil.
  - destruct (f x) eqn:Hx.
    + split; [done|]. intros H. specialize (H x ltac:(by left)). congruence.
    + rewrite IH. split.
      * intros H y [->|Hy]%elem_of_cons; auto.
      * intros H y Hy. apply H. by right.
Qed.

Lemma filtered_nil_iff (sel : list Z) (rows : list Statement) :
  filteredBalanceSheets sel rows = []
  ↔ ∀ r, r ∈ rows → sel ≠ [] ∧ year r ∉ sel.
Proof.
  unfold filteredBalanceSheets. destruct sel as [|y sel]; cbn [length Nat.eqb].
  - split.
    + intros -> r Hr. by apply elem_of_nil in Hr.
    + intros H. destruct rows as [|r rows]; [done|].
      by destruct (H r ltac:(by left)).
  - rewrite list_filter_nil_iff. split.
    + intros H r Hr. split; [done|]. intros Hin%includes_spec.
      rewrite (H r Hr) in Hin. done.
    + intros H r Hr. destruct (includes (y :: sel) (year r)) eqn:Hin; [|done].
      apply includes_spec in Hin. by destruct (H r Hr).
Qed.

(** X13: the page shows no table while it is loading or has no symbol
    selected; otherwise it shows the no-data message exactly when the
    year filter leaves no row of the active tab: the tab holds no rows,
    or years are selected and no row is of a selected year. *)
Theorem table_or_no_data (s : State) :
  (table t s = None ↔ isLoading s = true ∨ hasSymbol s = None)
  ∧ (table t s = Some (FinancialTable.NoData (t "common.noData"))
     ↔ isLoading s = false ∧ hasSymbol s ≠ None
       ∧ ∀ r, r ∈ loadedRows s → selectedYears s ≠ [] ∧ year r ∉ selectedYears s).
Proof.
  unfold table, loadedRows, FinancialTable.FinancialTable.
  destruct (isLoading s), (hasSymbol s) as [sym|]; cbn [negb].
  1,2,4: split; split; try done; try tauto; naive_solver.
  split; [split; [done|intros [|]; done]|].
  assert (FinancialTable.getData (activeTab s)
            (Some (filteredBalanceSheets (selectedYears s) (balanceSheets s)))
            (Some (filteredIncomeStatements (selectedYears s) (incomeStatements s)))
            (Some (filteredCashFlowStatements (selectedYears s) (cashFlowStatements s)))
          = filteredBalanceSheets (selectedYears s)
              (FinancialTable.getData (activeTab s) (Some (balanceSheets s))
                 (Some (incomeStatements s)) (Some (cashFlowStatements s)))) as ->
    by by destruct (activeTab s).
  rewrite <- filtered_nil_iff.
  destruct (filteredBalanceSheets _ _) as [|r rows]; cbn [length Nat.eqb].
  - split; [done|]. by intros _.
  - split; [done|]. by intros (_ & _ & ?).
Qed.
End PageTableFacts.

(** ** StockSearch.tsx: the debounce *)

Section DebounceFacts.
Import StockSearch.
Variable toUpperCase : string → string.
Variable env : option string.

Local Abbreviation step := (step toUpperCase env).
Local Abbreviation run := (run toUpperCase env).

Lemma run_app evs1 : ∀ evs2 s,
  run s (evs1 ++ evs2)
  = let '(s1, out1) := run s evs1 in
    let '(s2, out2) := run s1 evs2 in
    (s2, (out1 ++ out2)%list).
Proof.
  induction evs1 as [|e evs1 IH]; intros evs2 s; cbn.
  - by destruct (run s evs2).
  - destruct (step s e) as [s1 out1]. rewrite IH.
    destruct (run s1 evs1) as [s2 out2], (run s2 evs2) as [s3 out3].
    by rewrite (assoc_L (++)).
Qed.

Lemma setQuery_settled q s : settled s → settled (setQuery q s).
Proof.
  unfold setQuery. destruct (String.eqb q (query s)); [done|]. by left.
Qed.

Lemma setQuery_debounced q s : debouncedQuery (setQuery q s) = debouncedQuery s.
Proof. unfold setQuery. by destruct (String.eqb q (query s)). Qed.

Lemma searchEffect_fields s :
  debouncedQuery (searchEffect env s).1 = debouncedQuery s.
Proof.
  unfold searchEffect. by destruct (String.length (debouncedQuery s) <? 1)%nat.
Qed.

Lemma step_settled s e : settled s → settled (step s e).1.
Proof.
  intros Hs. destruct e; cbn -[searchEffect]; try done.
  - by apply setQuery_settled.
  - destruct Hs as [Ht|[Ht Hd]]; rewrite Ht; [|by right].
    destruct (String.eqb (query s) (debouncedQuery s)).
    + by right.
    + right. destruct (searchEffect_state env
                         {| query := query s; debouncedQuery := query s;
                            results := results s; isLoading := isLoading s;
                            isOpen := isOpen s; timer := None |}) as [-> ->].
      by rewrite searchEffect_fields.
  - apply (setQuery_settled "") in Hs. destruct Hs as [?|[? ?]]; [by left|by right].
Qed.

Lemma run_settled evs : ∀ s, settled s → settled (run s evs).1.
Proof.
  induction evs as [|e evs IH]; intros s Hs; [done|]. cbn.
  pose proof (step_settled s e Hs) as Hs1.
  destruct (step s e) as [s1 out1]. specialize (IH s1 Hs1).
  by destruct (run s1 evs).
Qed.

Lemma init_settled : settled init.
Proof. by left. Qed.

(** Changes alone send nothing and leave the debounced query alone. *)
Lemma run_changes typeds : ∀ s,
  (run s (map Change typeds)).2 = []
  ∧ debouncedQuery (run s (map Change typeds)).1 = debouncedQuery s.
Proof.
  induction typeds as [|ty typeds IH]; intros s; [done|]. cbn.
  destruct (IH (setQuery (toUpperCase ty) s)) as [Hout Hd].
  destruct (run (setQuery (toUpperCase ty) s) (map Change typeds)) as [s2 out2].
  cbn in *. by rewrite Hout, Hd, setQuery_debounced.
Qed.

(** After a change and the delay: one search for the new query, unless
    it is empty or already the debounced query. *)
Lemma change_then_elapse s last :
  settled s →
  (run s [Change last; Elapse]).2
  = if String.eqb (toUpperCase last) (debouncedQuery s)
       || String.eqb (toUpperCase last) ""
    then []
    else [Search (Api.searchStocks env (toUpperCase last))].
Proof.
  intros Hs. pose proof (setQuery_settled (toUpperCase last) s Hs) as Hs1.
  pose proof (setQuery_query (toUpperCase last) s) as Hq.
  pose proof (setQuery_debounced (toUpperCase last) s) as Hd.
  cbn -[searchEffect setQuery].
  destruct (setQuery (toUpperCase last) s) as [q d rs l o ti]. cbn in Hq, Hd. subst q d.
  destruct Hs1 as [Ht|[Ht Hd]]; cbn in Ht; subst ti; cbn -[searchEffect].
  - destruct (String.eqb (toUpperCase last) (debouncedQuery s)); [done|].
    unfold searchEffect. cbn.
    by destruct (toUpperCase last) as [|c u].
  - cbn in Hd. rewrite Hd, String.eqb_refl. done.
Qed.

(** X14: however many changes come within the delay, when it passes the
    box sends at most one search, for the text typed last in upper
    case; it sends none when that text is empty or is the query already
    searched. *)
Theorem burst_searches_last_text_only
    (evs : list Event) (typeds : list string) (last : string) :
  let s0 := (run init evs).1 in
  searched (run s0 (map Change typeds ++ [Change last; Elapse])%list).2
  = if String.eqb (toUpperCase last) (debouncedQuery s0)
       || String.eqb (toUpperCase last) ""
    then []
    else [Api.searchStocks env (toUpperCase last)].
Proof.
  intros s0. rewrite run_app.
  pose proof (run_settled evs init init_settled) as Hs0. fold s0 in Hs0.
  pose proof (run_settled (map Change typeds) s0 Hs0) as Hs1.
  destruct (run_changes typeds s0) as [Hout Hd].
  destruct (run s0 (map Change typeds)) as [s1 out1]. cbn in Hout, Hd, Hs1. subst out1.
  pose proof (change_then_elapse s1 last Hs1) as H.
  destruct (run s1 [Change last; Elapse]) as [s2 out2]. cbn in H |- *.
  rewrite H, Hd.
  by destruct (String.eqb (toUpperCase last) (debouncedQuery s0)
               || String.eqb (toUpperCase last) "").
Qed.

Lemma step_at_most_one s e :
  (length (searched (step s e).2) ≤ if is_elapse e then 1 else 0)%nat.
Proof.
  destruct e; cbn -[searchEffect]; try lia.
  destruct (timer s) as [v|]; [|cbn; lia].
  destruct (String.eqb v (debouncedQuery s)); [cbn; lia|].
  unfold searchEffect. cbn [debouncedQuery].
  destruct (String.length v <? 1)%nat; cbn; lia.
Qed.

(** X15: the box sends at most one search per expiry of the delay:
    through any events from any state, the searches sent are no more
    than the times the timer fired. *)
Theorem searches_bounded_by_expiries (s : State) (evs : list Event) :
  (length (searched (run s evs).2) ≤ length (List.filter is_elapse evs))%nat.
Proof.
  induction evs as [|e evs IH] in s |- *; cbn; [lia|].
  pose proof (step_at_most_one s e) as H1.
  destruct (step s e) as [s1 out1]. specialize (IH s1).
  destruct (run s1 evs) as [s2 out2]. cbn in *.
  unfold searched in *. rewrite omap_app, length_app.
  destruct (is_elapse e); cbn; lia.
Qed.

(** X16: choosing a result hands the symbol to the parent once, empties
    the query and closes the list; the delay that follows sends no
    search. *)
Theorem select_hands_over_and_clears (evs : list Event) (sym : string) :
  let s0 := (run init evs).1 in
  (run s0 [Select sym; Elapse]).2 = [OnSelect sym]
  ∧ query (run s0 [Select sym; Elapse]).1 = ""
  ∧ isOpen (run s0 [Select sym]).1 = false.
Proof.
  intros s0.
  pose proof (run_settled evs init init_settled) as Hs0. fold s0 in Hs0.
  pose proof (setQuery_settled "" s0 Hs0) as Hs1.
  pose proof (setQuery_query "" s0) as Hq.
  cbn -[searchEffect setQuery].
  destruct (setQuery "" s0) as [q d rs l o ti]. cbn in Hq. subst q.
  split; [|split; [|done]].
  - destruct Hs1 as [Ht|[Ht Hd]]; cbn in Ht; subst ti; cbn -[searchEffect]; [|done].
    by destruct d.
  - destruct ti as [v|]; cbn -[searchEffect]; [|done].
    destruct (String.eqb v d); [done|].
    pose proof (proj2 (searchEffect_state env
                  {| query := ""; debouncedQuery := v; results := rs;
                     isLoading := l; isOpen := false; timer := None |})) as H.
    by destruct (searchEffect env _).
Qed.
End DebounceFacts.

(** ** FinancialTable.tsx: cells and rows *)

Section TableFacts.
Import Intl FinancialTable.

Lemma formatNumber_placeholder_iff value locale :
  formatNumber value locale = "-" ↔ value = Null ∨ value = Undefined.
Proof.
  destruct value as [| |v]; cbn -[toLocaleString].
  - split; [by left|done].
  - split; [by right|done].
  - split; [|by intros [|]].
    intros H. exfalso. revert H. apply has_digit_not_placeholder.
    apply toLocaleString_has_digit.
Qed.

(** X17: a cell shows the placeholder exactly when the statement has
    the line item as [null] or does not have it at all; a line item that
    is a number, zero included, never shows as the placeholder. *)
Theorem cell_placeholder_iff_absent (item : Statement) (k locale : string) :
  cell item k locale = "-"
  ↔ items item !! k = Some None ∨ items item !! k = None.
Proof.
  unfold cell. rewrite formatNumber_placeholder_iff. unfold field.
  destruct (items item !! k) as [[v|]|]; naive_solver.
Qed.


Lemma row_keys_are_fields reportType :
  NoDup (map key (getRows reportType))
  ∧ (list_to_set (map key (getRows reportType)) : gset string)
    = list_to_set (fields_of reportType).
Proof.
  split.
  - destruct reportType; apply (bool_decide_unpack _); by vm_compute.
  - destruct reportType; apply (bool_decide_unpack _); by vm_compute.
Qed.

(** X19: every table shows each numeric line item of its interface in
    exactly one row: for a statement that carries the interface's line
    items, no cell reads a missing field, every line item has its row,
    and no two rows read the same one. *)
Theorem rows_cover_the_interface (reportType : ReportType) (item : Statement) :
  has_fields (fields_of reportType) item →
  (∀ row, row ∈ getRows reportType → field item (key row) ≠ Undefined)
  ∧ (∀ k, k ∈ dom (items item) → ∃ row, row ∈ getRows reportType ∧ key row = k)
  ∧ NoDup (map key (getRows reportType)).
Proof.
  intros Hf. destruct (row_keys_are_fields reportType) as [Hnd Hset].
  unfold has_fields in Hf. rewrite <- Hset in Hf.
  split; [|split; [|done]].
  - intros row Hrow.
    assert (key row ∈ dom (items item)) as Hin.
    { rewrite Hf. apply elem_of_list_to_set, list_elem_of_fmap. by exists row. }
    apply elem_of_dom in Hin as [v Hv]. unfold field. rewrite Hv. by destruct v.
  - intros k Hk. rewrite Hf in Hk.
    apply elem_of_list_to_set, list_elem_of_fmap in Hk as (row & -> & Hrow).
    by exists row.
Qed.

Lemma rows_cover_the_interface_witness :
  has_fields (fields_of income_statement) (blank_statement income_statement 2023)
  ∧ NoDup (map key (getRows income_statement)).
Proof.
  assert (has_fields (fields_of income_statement)
            (blank_statement income_statement 2023)) as H
    by (unfold has_fields; apply (bool_decide_unpack _); vm_compute; exact I).
  split; [exact H|].
  exact (proj2 (proj2 (rows_cover_the_interface income_statement _ H))).
Defined.
End TableFacts.
